(** * svue-export: a shallow embedding of [main.py]

    The script logs into a StudentVUE SOAP endpoint, fetches the gradebook
    of each of the four reporting periods and flattens it into a CSV file.

    The embedding follows the source function by function:
    - parsed XML (a [BeautifulSoup] object) is a tree of tags and strings,
      with [find_all], [find], [get] and [text] as bs4 defines them;
    - Python exceptions are values of [exn], with the class hierarchy that
      the [except] clauses of the source depend on;
    - the effects (environment, terminal, network, file system, printing)
      are threaded through a state-and-exception monad [IO] over [world];
    - the remote service, the XML parser and the UTF-8 encoder of Python
      strings are parameters of the development. *)

From Stdlib Require Import String Ascii List Arith Lia DecimalString.
From stdpp Require Import base option list strings gmap.

Local Open Scope string_scope.
Local Open Scope list_scope.

(** ** Parsed XML documents *)

Module Soup.

(** A bs4 page element: a [Tag] with its attribute dict and contents, or
    a [NavigableString]. *)
#[warnings="-register-all"]
Inductive node : Type :=
| Tag (name : string) (attrs : gmap string string) (contents : list node)
| NavigableString (s : string).

Definition tag_name (n : node) : option string :=
  match n with
  | Tag nm _ _ => Some nm
  | NavigableString _ => None
  end.

(** [tag.get(key)]: the attribute value, or [None] when it is missing. *)
Definition get (n : node) (key : string) : option string :=
  match n with
  | Tag _ a _ => a !! key
  | NavigableString _ => None
  end.

(** [tag.descendants]: every node below [n], in document order. *)
Fixpoint descendants (n : node) : list node :=
  match n with
  | Tag _ _ cs =>
      (fix walk (l : list node) : list node :=
         match l with
         | [] => []
         | c :: l' => c :: descendants c ++ walk l'
         end) cs
  | NavigableString _ => []
  end.

Definition is_named (nm : string) (n : node) : bool :=
  match n with
  | Tag nm' _ _ => if decide (nm' = nm) then true else false
  | NavigableString _ => false
  end.

(** [tag.find_all(name)]: the descendant tags called [name], at any
    depth, in document order.  Names are compared as plain strings: the
    elements the script looks for carry no namespace prefix. *)
Definition find_all (n : node) (nm : string) : list node :=
  List.filter (is_named nm) (descendants n).

(** [tag.find(name)]: the first such tag, or [None]. *)
Definition find (n : node) (nm : string) : option node :=
  match find_all n nm with
  | [] => None
  | x :: _ => Some x
  end.

(** [tag.text]: the concatenation of all strings below the tag. *)
Fixpoint text (n : node) : string :=
  match n with
  | Tag _ _ cs =>
      (fix walk (l : list node) : string :=
         match l with
         | [] => EmptyString
         | c :: l' => text c +:+ walk l'
         end) cs
  | NavigableString s => s
  end.

(** Induction on a node with the hypothesis for every child. *)
Fixpoint node_children_ind (P : node → Prop)
    (Htag : ∀ nm a cs, Forall P cs → P (Tag nm a cs))
    (Hstr : ∀ s, P (NavigableString s)) (n : node) : P n :=
  match n with
  | Tag nm a cs =>
      Htag nm a cs
        ((fix all (l : list node) : Forall P l :=
            match l with
            | [] => List.Forall_nil P
            | c :: l' =>
                List.Forall_cons P c l' (node_children_ind P Htag Hstr c) (all l')
            end) cs)
  | NavigableString s => Hstr s
  end.

End Soup.

Import Soup.

(** ** Python exceptions *)

Module Py.

(** The exception classes the script can meet.  [requests] derives its
    [RequestException] from [IOError], which is an alias of [OSError]. *)
Inductive exn_class : Type :=
| BaseException
| Exception
| OSError
| EOFError
| AttributeError
| ValueError
| UnicodeError
| UnicodeEncodeError
| RequestException
| ConnectionError
| HTTPError.

#[global] Instance exn_class_eq_dec : EqDecision exn_class.
Proof. solve_decision. Defined.

Definition IOError : exn_class := OSError.

(** The direct base class. *)
Definition base (c : exn_class) : option exn_class :=
  match c with
  | BaseException => None
  | Exception => Some BaseException
  | OSError => Some Exception
  | EOFError => Some Exception
  | AttributeError => Some Exception
  | ValueError => Some Exception
  | UnicodeError => Some ValueError
  | UnicodeEncodeError => Some UnicodeError
  | RequestException => Some OSError
  | ConnectionError => Some RequestException
  | HTTPError => Some RequestException
  end.

Fixpoint issubclass_upto (depth : nat) (c d : exn_class) : bool :=
  if decide (c = d) then true
  else match depth with
       | O => false
       | S k => match base c with
                | Some b => issubclass_upto k b d
                | None => false
                end
       end.

(** The hierarchy above is four levels deep. *)
Definition issubclass (c d : exn_class) : bool := issubclass_upto 4 c d.

Record exn : Type := Exn { exn_cls : exn_class; exn_msg : string }.

Definition isinstance (e : exn) (c : exn_class) : bool :=
  issubclass (exn_cls e) c.

(** [str(e)], as the f-strings of the script format it. *)
Definition str_exn (e : exn) : string := exn_msg e.

(** [str(n)] for a non-negative integer. *)
Definition str_int (n : nat) : string :=
  NilZero.string_of_uint (Nat.to_uint n).

(** Truthiness of an [Optional[str]]: [None] and the empty string are
    false. *)
Definition truthy (o : option string) : bool :=
  match o with
  | Some s => if decide (s = EmptyString) then false else true
  | None => false
  end.

(** [needle in hay] on strings: a plain substring test. *)
Fixpoint str_in (needle hay : string) : bool :=
  if String.prefix needle hay then true
  else match hay with
       | EmptyString => false
       | String _ rest => str_in needle rest
       end.

End Py.

Import Py.

(** ** The world the script runs in *)

(** What [s.encode('utf-8')] comes to: the bytes of [s], or the message
    of the [UnicodeEncodeError] when [s] holds a code point that UTF-8
    does not encode (a lone surrogate, which is what [os.getenv] makes of
    a byte of the environment that is no UTF-8). *)
Inductive encoding : Type :=
| Bytes (data : string)
| Unencodable (msg : string).

(** What the remote service answers to one POST. *)
Record response : Type := Response {
  status_code : nat;
  reason : string;
  content : string
}.

Inductive reply : Type :=
| TransportFailure (msg : string)
| Answered (r : response).

(** Observable actions, in the order in which they happen. *)
Inductive event : Type :=
| EvPrint (s : string)
| EvInput (prompt : string)
| EvGetpass (prompt : string)
| EvPost (url : string) (data : string)
| EvSleep (ms : nat).

(** A CSV file is kept as its records; a record is the list of its
    fields. *)
Abbreviation record := (list string) (only parsing).

Record world : Type := World {
  environ : gmap string string;
  dotenv : gmap string string;
  stdin : list string;
  files : gmap string (list record);
  fs_readonly : bool;
  disk_quota : option nat;
  trace : list event
}.

Definition log (e : event) (w : world) : world :=
  {| environ := environ w; dotenv := dotenv w; stdin := stdin w;
     files := files w; fs_readonly := fs_readonly w;
     disk_quota := disk_quota w; trace := trace w ++ [e] |}.

Definition set_environ (env : gmap string string) (w : world) : world :=
  {| environ := env; dotenv := dotenv w; stdin := stdin w;
     files := files w; fs_readonly := fs_readonly w;
     disk_quota := disk_quota w; trace := trace w |}.

Definition set_stdin (l : list string) (w : world) : world :=
  {| environ := environ w; dotenv := dotenv w; stdin := l;
     files := files w; fs_readonly := fs_readonly w;
     disk_quota := disk_quota w; trace := trace w |}.

Definition set_file (path : string) (rows : list record) (q : option nat)
    (w : world) : world :=
  {| environ := environ w; dotenv := dotenv w; stdin := stdin w;
     files := <[path := rows]> (files w); fs_readonly := fs_readonly w;
     disk_quota := q; trace := trace w |}.

(** The lines printed so far, the requests posted so far, and the prompts
    shown so far. *)
Definition printed (w : world) : list string :=
  omap (λ e, match e with EvPrint s => Some s | _ => None end) (trace w).

Definition posted (w : world) : list string :=
  omap (λ e, match e with EvPost _ b => Some b | _ => None end) (trace w).

Definition prompts (w : world) : list event :=
  List.filter (λ e, match e with
                    | EvInput _ | EvGetpass _ => true
                    | _ => false
                    end) (trace w).

(** The records of the file at [path]; a missing file has none. *)
Definition file_rows (path : string) (w : world) : list record :=
  default [] (files w !! path).

(** ** The monad of effects *)

Inductive result (A : Type) : Type :=
| Ok (a : A)
| Raised (e : exn).
Arguments Ok {A} a.
Arguments Raised {A} e.

Definition IO (A : Type) : Type := world → result A * world.

#[global] Instance IO_ret : MRet IO := λ A a w, (Ok a, w).

#[global] Instance IO_bind : MBind IO := λ A B k m w,
  match m w with
  | (Ok a, w') => k a w'
  | (Raised e, w') => (Raised e, w')
  end.

Definition raise {A : Type} (c : exn_class) (msg : string) : IO A :=
  λ w, (Raised (Exn c msg), w).

(** [try: body  except <clauses>]: [handler e] is the clause that matches
    [e], if there is one; an exception no clause matches goes on. *)
Definition try_except {A : Type} (body : IO A)
    (handler : exn → option (IO A)) : IO A :=
  λ w, match body w with
       | (Ok a, w') => (Ok a, w')
       | (Raised e, w') =>
           match handler e with
           | Some h => h w'
           | None => (Raised e, w')
           end
       end.

(** [for x in l: body x] *)
Fixpoint for_each {A : Type} (l : list A) (body : A → IO unit) : IO unit :=
  match l with
  | [] => mret tt
  | x :: l' => body x ;; for_each l' body
  end.

(** [range(n)] *)
Definition range (n : nat) : list nat := seq 0 n.

(** ** Primitive operations *)

Definition print (s : string) : IO unit :=
  λ w, (Ok tt, log (EvPrint s) w).

(** [load_dotenv()]: variables of the [.env] file are added to the
    environment; a variable that is already set keeps its value. *)
Definition load_dotenv : IO unit :=
  λ w, (Ok tt, set_environ (environ w ∪ dotenv w) w).

Definition getenv (key : string) : IO (option string) :=
  λ w, (Ok (environ w !! key), w).

(** [input(prompt)]: the next line of the terminal, echoed; [EOFError]
    when there is none. *)
Definition input (prompt : string) : IO string :=
  λ w, match stdin w with
       | [] => (Raised (Exn EOFError "EOF when reading a line"),
                log (EvInput prompt) w)
       | l :: rest => (Ok l, log (EvInput prompt) (set_stdin rest w))
       end.

(** [getpass.getpass(prompt)]: the same without echo. *)
Definition getpass (prompt : string) : IO string :=
  λ w, match stdin w with
       | [] => (Raised (Exn EOFError "EOF when reading a line"),
                log (EvGetpass prompt) w)
       | l :: rest => (Ok l, log (EvGetpass prompt) (set_stdin rest w))
       end.

Definition sleep (ms : nat) : IO unit :=
  λ w, (Ok tt, log (EvSleep ms) w).

(** [open(path, "w", ...)]: the file is created or truncated. *)
Definition open_w (path : string) : IO string :=
  λ w, if fs_readonly w
       then (Raised (Exn OSError
                       ("[Errno 13] Permission denied: '" +:+ path +:+ "'")), w)
       else (Ok path, set_file path [] (disk_quota w) w).

(** [csv.writer] writes [None] as an empty field. *)
Definition csv_field (v : option string) : string :=
  match v with
  | Some s => s
  | None => EmptyString
  end.

(** [writer.writerow(row)].  A [csv.writer] is known by the path of the
    file it writes to; the row goes to the end of that file, unless the
    disk is full.  The buffer of the text file is not kept: a row is
    taken to reach the file when it is handed over, so that a full disk
    shows at the call, where Python may report it at a later write or
    when the file is closed.  What is said below of the content of a file
    is said of worlds whose disk does not fill up ([disk_quota] is
    [None]). *)
Definition writerow (path : string) (row : list (option string)) : IO unit :=
  λ w, match disk_quota w with
       | Some O =>
           (Raised (Exn OSError "[Errno 28] No space left on device"), w)
       | q => (Ok tt, set_file path (file_rows path w ++ [csv_field <$> row])
                        (Nat.pred <$> q) w)
       end.

(** [response.raise_for_status()]: [HTTPError] on a status from 400 to
    599, with the message of [requests]; [url] is [response.url]. *)
Definition raise_for_status (url : string) (r : response) : IO unit :=
  let code := status_code r in
  if (400 <=? code)%nat && (code <? 500)%nat then
    raise HTTPError (str_int code +:+ " Client Error: " +:+ reason r
                       +:+ " for url: " +:+ url)
  else if (500 <=? code)%nat && (code <? 600)%nat then
    raise HTTPError (str_int code +:+ " Server Error: " +:+ reason r
                       +:+ " for url: " +:+ url)
  else mret tt.

(** [x.text] where [x] may be [None]. *)
Definition text_of (x : option node) : IO string :=
  match x with
  | Some t => mret (text t)
  | None => raise AttributeError "'NoneType' object has no attribute 'text'"
  end.

(** ** The script *)

Definition dq : string := String (ascii_of_nat 34) EmptyString.
Definition nl : string := String (ascii_of_nat 10) EmptyString.
Definition quoted (s : string) : string := dq +:+ s +:+ dq.

Fixpoint join_lines (l : list string) : string :=
  match l with
  | [] => EmptyString
  | [x] => x
  | x :: l' => x +:+ nl +:+ join_lines l'
  end.

Definition API_URL : string :=
  "https://sisstudent.fcps.edu/SVUE/Service/PXPCommunication.asmx".
Definition HEADERS : gmap string string :=
  {[ "Content-Type" := "application/soap+xml; charset=utf-8" ]}.
Definition OUTPUT_FILENAME : string := "grades.csv".
Definition REPORTING_PERIODS : nat := 4.

Definition get_credentials : IO (string * string) :=
  load_dotenv ;;
  username ← getenv "STUDENTVUE_USERNAME";
  password ← getenv "STUDENTVUE_PASSWORD";
  let prompt_user : IO (string * string) :=
    print "No .env file detected. Please provide your credentials." ;;
    username ← input "Enter StudentVUE Username: ";
    password ← getpass "Enter StudentVUE Password: ";
    mret (username, password) in
  match username, password with
  | Some u, Some p =>
      if truthy username && truthy password then
        print "Credentials successfully loaded from .env file." ;;
        mret (u, p)
      else prompt_user
  | _, _ => prompt_user
  end.

Definition xml_request_body (username password : string) (period : nat)
    : string :=
  join_lines
    [ "<?xml version=" +:+ quoted "1.0" +:+ " encoding=" +:+ quoted "utf-8"
        +:+ "?>";
      "<soap12:Envelope xmlns:xsi="
        +:+ quoted "http://www.w3.org/2001/XMLSchema-instance"
        +:+ " xmlns:xsd=" +:+ quoted "http://www.w3.org/2001/XMLSchema"
        +:+ " xmlns:soap12="
        +:+ quoted "http://www.w3.org/2003/05/soap-envelope" +:+ ">";
      "  <soap12:Body>";
      "    <ProcessWebServiceRequest xmlns="
        +:+ quoted "http://edupoint.com/webservices/" +:+ ">";
      "      <userID>" +:+ username +:+ "</userID>";
      "      <password>" +:+ password +:+ "</password>";
      "      <skipLoginLog>true</skipLoginLog>";
      "      <parent>false</parent>";
      "      <webServiceHandleName>PXPWebServices</webServiceHandleName>";
      "      <methodName>Gradebook</methodName>";
      "      <paramStr>&lt;Params&gt;&lt;ReportPeriod&gt;" +:+ str_int period
        +:+ "&lt;/ReportPeriod&gt;&lt;/Params&gt;</paramStr>";
      "    </ProcessWebServiceRequest>";
      "  </soap12:Body>";
      "</soap12:Envelope>" ].

Definition write_data_to_csv (writer : string) (gradebook_soup : node)
    : IO unit :=
  let courses := find_all gradebook_soup "Course" in
  for_each courses (λ course,
    let course_title := get course "Title" in
    let course_room := get course "Room" in
    let course_staff := get course "Staff" in
    let course_period := get course "Period" in
    let marks := find_all course "Mark" in
    for_each marks (λ mark,
      let mark_name := get mark "MarkName" in
      let calculated_score := get mark "CalculatedScoreString" in
      let assignments := find_all mark "Assignment" in
      match assignments with
      | [] =>
          writerow writer
            [ mark_name; course_title; course_room; course_staff;
              course_period; calculated_score; mark_name;
              Some "N/A"; Some "N/A"; Some "N/A"; Some "N/A"; Some "N/A";
              Some "N/A"; Some "N/A" ]
      | _ :: _ =>
          for_each assignments (λ assignment,
            writerow writer
              [ mark_name; course_title; course_room; course_staff;
                course_period; calculated_score; mark_name;
                get assignment "Measure"; get assignment "Type";
                get assignment "Date"; get assignment "DueDate";
                get assignment "Score"; get assignment "Points";
                get assignment "Notes" ])
      end)).

Definition csv_header : list string :=
  [ "Quarter"; "Course Title"; "Room"; "Teacher"; "Period"; "Overall Score";
    "Mark"; "Assignment"; "Type"; "Date Assigned"; "Date Due"; "Score";
    "Points"; "Notes" ].

Section Script.

(** The UTF-8 encoder of Python strings. *)
Variable encode : string → encoding.

(** The remote service: its answer to a POST of the bytes [data] to
    [url]. *)
Variable service : string → string → reply.

(** [BeautifulSoup(markup, 'lxml-xml')]: the parser of bs4 and lxml. *)
Variable parse_xml : string → node.

(** [s.encode('utf-8')] *)
Definition str_encode (s : string) : IO string :=
  match encode s with
  | Bytes data => mret data
  | Unencodable msg => raise UnicodeEncodeError msg
  end.

(** [session.post(url, data=..., headers=...)], [data] being bytes.  The
    session holds no state that the script could observe, so that it is
    not an argument here: the answer is that of the service to the
    request, and a transport failure is the [ConnectionError] of
    [requests]. *)
Definition session_post (url data : string) (headers : gmap string string)
    : IO response :=
  λ w, match service url data with
       | TransportFailure msg =>
           (Raised (Exn ConnectionError msg), log (EvPost url data) w)
       | Answered r => (Ok r, log (EvPost url data) w)
       end.

Definition fetch_gradebook_data (username password : string) (period : nat)
    : IO (option node) :=
  print ("Requesting data for reporting period " +:+ str_int (period + 1)
           +:+ "...") ;;
  let xml_request_body := xml_request_body username password period in
  try_except
    (data ← str_encode xml_request_body;
     response ← session_post API_URL data HEADERS;
     raise_for_status API_URL response ;;
     let soup := parse_xml (content response) in
     gradebook_xml_content ←
       text_of (find soup "ProcessWebServiceRequestResult");
     if str_in "ERROR" gradebook_xml_content then
       print ("  -> Server returned an error for period "
                +:+ str_int (period + 1)
                +:+ ". The period may not exist or data is unavailable.") ;;
       mret None
     else
       print ("  -> Successfully retrieved data for period "
                +:+ str_int (period + 1) +:+ ".") ;;
       mret (Some (parse_xml gradebook_xml_content)))
    (λ e, if isinstance e RequestException then
            Some (print ("  -> A network error occurred for period "
                           +:+ str_int (period + 1) +:+ ": " +:+ str_exn e) ;;
                  mret None)
          else None).

(** The [with] statement opens the session and the file and closes both on
    the way out, which changes nothing of the world as kept here;
    [print] of the completion message comes after it, inside the [try].
    A [BeautifulSoup] object is always true ([Tag.__bool__]), so that
    [if gradebook_soup] tells [None] from a document.  [time.sleep(.25)]
    is a pause of 250 milliseconds. *)
Definition main : IO unit :=
  print "--- StudentVUE Grade Exporter ---" ;;
  '(username, password) ← get_credentials;
  try_except
    (f ← open_w OUTPUT_FILENAME;
     let writer := f in
     writerow writer (Some <$> csv_header) ;;
     for_each (range REPORTING_PERIODS) (λ period,
       gradebook_soup ← fetch_gradebook_data username password period;
       match gradebook_soup with
       | Some soup => write_data_to_csv writer soup
       | None => mret tt
       end ;;
       sleep 250) ;;
     print (nl +:+ "Export complete. All available data has been saved to '"
              +:+ OUTPUT_FILENAME +:+ "'"))
    (λ e, if isinstance e IOError then
            Some (print (nl +:+ "A critical file error occurred: "
                           +:+ "Could not write to " +:+ OUTPUT_FILENAME
                           +:+ ". Details: " +:+ str_exn e))
          else if isinstance e Exception then
            Some (print (nl +:+ "An unexpected critical error occurred: "
                           +:+ str_exn e))
          else None).

End Script.

(** ** Vocabulary for the statements *)

(** The rows [write_data_to_csv] hands to the writer.  A row starts with
    the seven fields taken from the Mark and its Course. *)
Definition shared_fields (course mark : node) : list (option string) :=
  [ get mark "MarkName"; get course "Title"; get course "Room";
    get course "Staff"; get course "Period";
    get mark "CalculatedScoreString"; get mark "MarkName" ].

Definition assignment_fields (assignment : node) : list (option string) :=
  [ get assignment "Measure"; get assignment "Type"; get assignment "Date";
    get assignment "DueDate"; get assignment "Score";
    get assignment "Points"; get assignment "Notes" ].

Definition PLACEHOLDER : string := "N/A".

Definition placeholder_row (course mark : node) : list (option string) :=
  shared_fields course mark ++ replicate 7 (Some PLACEHOLDER).

Definition assignment_row (course mark assignment : node)
    : list (option string) :=
  shared_fields course mark ++ assignment_fields assignment.

(** The rows of one visit of [mark] by the loop over the marks of
    [course], of one visit of [course], and of a whole document. *)
Definition mark_rows (course mark : node) : list (list (option string)) :=
  match find_all mark "Assignment" with
  | [] => [placeholder_row course mark]
  | assignments => assignment_row course mark <$> assignments
  end.

Definition course_rows (course : node) : list (list (option string)) :=
  flat_map (mark_rows course) (find_all course "Mark").

Definition soup_rows (soup : node) : list (list (option string)) :=
  flat_map course_rows (find_all soup "Course").

(** The rows written before and after the visit of a Mark that stands
    after the marks [ms1] of [course] and before its marks [ms2], where
    [course] stands after the courses [cs1] and before the courses [cs2]. *)
Definition rows_before (cs1 : list node) (course : node) (ms1 : list node)
    : list (list (option string)) :=
  flat_map course_rows cs1 ++ flat_map (mark_rows course) ms1.

Definition rows_after (course : node) (ms2 cs2 : list node)
    : list (list (option string)) :=
  flat_map (mark_rows course) ms2 ++ flat_map course_rows cs2.

(** The number of rows of one visit of a Mark. *)
Definition block_length (mark : node) : nat :=
  Nat.max 1 (length (find_all mark "Assignment")).

(** The shape of a gradebook as the service sends it: a Mark stands below
    a Course, and no Course stands below another.  [layered n] says so of
    everything below [n]. *)
Fixpoint layered (n : node) : bool :=
  match n with
  | Tag _ _ cs =>
      (fix all (l : list node) : bool :=
         match l with
         | [] => true
         | c :: l' =>
             (if is_named "Course" c then
                match find_all c "Course" with
                | [] => true
                | _ :: _ => false
                end
              else negb (is_named "Mark" c) && layered c)
             && all l'
         end) cs
  | NavigableString _ => true
  end.

(** The headers of the seven columns that describe an assignment. *)
Definition assignment_columns : list string :=
  [ "Assignment"; "Type"; "Date Assigned"; "Date Due"; "Score"; "Points";
    "Notes" ].

(** Where each of the fourteen columns comes from. *)
Inductive origin : Type := OfCourse | OfMark | OfAssignment.

Definition column_source : list (origin * string) :=
  [ (OfMark, "MarkName"); (OfCourse, "Title"); (OfCourse, "Room");
    (OfCourse, "Staff"); (OfCourse, "Period");
    (OfMark, "CalculatedScoreString"); (OfMark, "MarkName");
    (OfAssignment, "Measure"); (OfAssignment, "Type");
    (OfAssignment, "Date"); (OfAssignment, "DueDate");
    (OfAssignment, "Score"); (OfAssignment, "Points");
    (OfAssignment, "Notes") ].

Definition pick (o : origin) (course mark assignment : node) : node :=
  match o with
  | OfCourse => course
  | OfMark => mark
  | OfAssignment => assignment
  end.

(** The record the CSV writer makes of a row. *)
Definition csv_record (row : list (option string)) : record :=
  csv_field <$> row.

(** One more record at the end of the file at [path]. *)
Definition write_record (path : string) (r : record) (w : world) : world :=
  set_file path (file_rows path w ++ [r]) (Nat.pred <$> disk_quota w) w.

Definition append_rows (path : string) (rs : list record) (w : world)
    : world :=
  fold_left (λ w' r, write_record path r w') rs w.

Definition logs (es : list event) (w : world) : world :=
  fold_left (λ w' e, log e w') es w.

(** [m] returns normally and appends exactly [rows] to the file at [path],
    whenever the disk does not fill up. *)
Definition writes_rows (m : IO unit) (path : string)
    (rows : list (list (option string))) : Prop :=
  ∀ w, disk_quota w = None →
    ∃ w', m w = (Ok tt, w') ∧
          file_rows path w' = file_rows path w ++ (csv_record <$> rows).

(** [m] raises nothing but exceptions of the [classes]. *)
Definition raises_only {A : Type} (m : IO A) (classes : list exn_class)
    : Prop :=
  ∀ w e w', m w = (Raised e, w') → exn_cls e ∈ classes.

(** The classes of the exceptions that can come up in the [try] block of
    [main]. *)
Definition export_errors : list exn_class :=
  [OSError; AttributeError; UnicodeEncodeError].

(** The three messages [main] can end with. *)
Definition msg_complete : string :=
  nl +:+ "Export complete. All available data has been saved to '"
     +:+ OUTPUT_FILENAME +:+ "'".

Definition msg_file_error (e : exn) : string :=
  nl +:+ "A critical file error occurred: " +:+ "Could not write to "
     +:+ OUTPUT_FILENAME +:+ ". Details: " +:+ str_exn e.

Definition msg_unexpected (e : exn) : string :=
  nl +:+ "An unexpected critical error occurred: " +:+ str_exn e.

Definition banner : string := "--- StudentVUE Grade Exporter ---".

(** [raise_for_status] raises exactly on these status codes. *)
Definition http_error (code : nat) : bool :=
  (400 <=? code)%nat && (code <? 600)%nat.

Definition no_text_attribute : exn :=
  Exn AttributeError "'NoneType' object has no attribute 'text'".

Section Outcomes.

Variable encode : string → encoding.
Variable service : string → string → reply.
Variable parse_xml : string → node.

(** One turn of the loop of [main] over the periods (the body of the
    [for] statement), named so that statements can speak of a single
    period. *)
Definition period_step (writer username password : string) (period : nat)
    : IO unit :=
  gradebook_soup ← fetch_gradebook_data encode service parse_xml
                     username password period;
  match gradebook_soup with
  | Some soup => write_data_to_csv writer soup
  | None => mret tt
  end ;;
  sleep 250.

(** What a fetch comes to, read off the answer of the service. *)
Inductive outcome : Type :=
| Unavailable
| Document (soup : node)
| Crashed (e : exn).

Definition fetch_outcome (username password : string) (period : nat)
    : outcome :=
  match encode (xml_request_body username password period) with
  | Unencodable msg => Crashed (Exn UnicodeEncodeError msg)
  | Bytes data =>
      match service API_URL data with
      | TransportFailure _ => Unavailable
      | Answered r =>
          if http_error (status_code r) then Unavailable
          else match find (parse_xml (content r))
                       "ProcessWebServiceRequestResult" with
               | None => Crashed no_text_attribute
               | Some t =>
                   if str_in "ERROR" (text t) then Unavailable
                   else Document (parse_xml (text t))
               end
      end
  end.

(** The bytes of the request of a period, when its body can be encoded:
    what the fetch of the period sends. *)
Definition request (username password : string) (period : nat)
    : option string :=
  match encode (xml_request_body username password period) with
  | Bytes data => Some data
  | Unencodable _ => None
  end.

(** What [fetch_gradebook_data] does with it: return or raise. *)
Definition returned (o : outcome) : result (option node) :=
  match o with
  | Unavailable => Ok None
  | Document soup => Ok (Some soup)
  | Crashed e => Raised e
  end.

(** The rows a period adds to the file. *)
Definition period_rows (username password : string) (period : nat)
    : list (list (option string)) :=
  match fetch_outcome username password period with
  | Document soup => soup_rows soup
  | _ => []
  end.

(** The loop over [periods], as far as it gets: the periods it comes to,
    the rows it writes, and the exception that stops it, if any. *)
Fixpoint run_periods (username password : string) (periods : list nat)
    : list nat * list (list (option string)) * option exn :=
  match periods with
  | [] => ([], [], None)
  | p :: rest =>
      match fetch_outcome username password p with
      | Crashed e => ([p], [], Some e)
      | _ =>
          let '(asked, rows, stop) := run_periods username password rest in
          (p :: asked, period_rows username password p ++ rows, stop)
      end
  end.

(** A reply that makes the request itself fail: no connection, or an HTTP
    error status. *)
Definition network_error (r : reply) : Prop :=
  match r with
  | TransportFailure _ => True
  | Answered a => http_error (status_code a) = true
  end.

(** What one turn of the loop puts on the wire: its request, when the
    body can be encoded, and then its pause of 250 milliseconds. *)
Definition turn_traffic (username password : string) (period : nat)
    : list (string * string + nat) :=
  option_list (inl ∘ pair API_URL <$> request username password period)
    ++ [inr 250].

(** The [try] block of [main], once the credentials are there. *)
Definition export (username password : string) : IO unit :=
  f ← open_w OUTPUT_FILENAME;
  writerow f (Some <$> csv_header) ;;
  for_each (range REPORTING_PERIODS) (period_step f username password) ;;
  print msg_complete.

End Outcomes.

(** ** Sample documents, services and worlds *)

Module Sample.

Definition hw1 : node :=
  Tag "Assignment"
    {[ "Measure" := "HW1"; "Type" := "Homework"; "Score" := "10/10";
       "Points" := "10" ]} [].

Definition quiz1 : node :=
  Tag "Assignment"
    {[ "Measure" := "Quiz 1"; "Type" := "Quiz"; "Date" := "9/12/2024";
       "DueDate" := "9/12/2024"; "Score" := "8/10"; "Points" := "10";
       "Notes" := "retake allowed" ]} [].

Definition q1 : node :=
  Tag "Mark" {[ "MarkName" := "Q1"; "CalculatedScoreString" := "95%" ]}
    [Tag "Assignments" ∅ [hw1; quiz1]].

(** A Mark without assignments, and without a calculated score. *)
Definition q2 : node := Tag "Mark" {[ "MarkName" := "Q2" ]} [].

Definition algebra : node :=
  Tag "Course"
    {[ "Title" := "Algebra"; "Room" := "12"; "Staff" := "Smith";
       "Period" := "3" ]}
    [Tag "Marks" ∅ [q1; q2]].

Definition gradebook : node :=
  Tag "[document]" ∅ [Tag "Gradebook" ∅ [Tag "Courses" ∅ [algebra]]].

(** Documents that are not gradebooks: a Course inside a Course, and a
    Mark outside of any Course. *)
Definition inner_course : node := Tag "Course" {[ "Title" := "Lab" ]} [q2].

Definition outer_course : node :=
  Tag "Course" {[ "Title" := "Physics" ]} [inner_course].

Definition nested : node := Tag "[document]" ∅ [outer_course].

Definition stray : node := Tag "[document]" ∅ [q2].

Definition envelope (payload : string) : node :=
  Tag "[document]" ∅
    [Tag "soap:Envelope" ∅
       [Tag "soap:Body" ∅
          [Tag "ProcessWebServiceRequestResponse" ∅
             [Tag "ProcessWebServiceRequestResult" ∅
                [NavigableString payload]]]]].

Definition maintenance_page : node :=
  Tag "[document]" ∅
    [Tag "html" ∅ [Tag "body" ∅ [NavigableString "Down for maintenance"]]].

(** A parser that knows a handful of documents by their text. *)
Definition parse (markup : string) : node :=
  if decide (markup = "<Gradebook/>") then gradebook
  else if decide (markup = "<result><Gradebook/></result>")
       then envelope "<Gradebook/>"
  else if decide (markup = "<result><RT_ERROR/></result>")
       then envelope "<RT_ERROR ERROR_MESSAGE='Invalid user id or password'/>"
  else if decide (markup = "<html/>") then maintenance_page
  else Tag "[document]" ∅ [].

(** The texts of the samples are kept as bytes: a byte below 128 is the
    character of ASCII, and any other byte stands for the lone surrogate
    that Python makes of a stray byte of the environment.  [utf8] encodes
    such a text, with the message of Python for its first surrogate. *)
Definition hex_digit (n : nat) : string :=
  String (ascii_of_nat (if (n <? 10)%nat then 48 + n else 87 + n))
    EmptyString.

Fixpoint first_surrogate (s : string) (position : nat)
    : option (nat * nat) :=
  match s with
  | EmptyString => None
  | String c rest =>
      if (nat_of_ascii c <? 128)%nat then first_surrogate rest (S position)
      else Some (position, nat_of_ascii c)
  end.

Definition utf8 (s : string) : encoding :=
  match first_surrogate s 0 with
  | None => Bytes s
  | Some (position, byte) =>
      Unencodable
        ("'utf-8' codec can't encode character '\udc"
           +:+ hex_digit (byte / 16) +:+ hex_digit (byte mod 16)
           +:+ "' in position " +:+ str_int position
           +:+ ": surrogates not allowed")
  end.

(** The period a request asks for. *)
Definition period_of (body : string) : option nat :=
  List.find (λ k, str_in ("ReportPeriod&gt;" +:+ str_int k +:+ "&lt;") body)
    (range REPORTING_PERIODS).

(** A service that answers the request for period [k] with the [k]-th of
    the [replies]. *)
Definition scripted (replies : list reply) (url body : string) : reply :=
  match period_of body ≫= (replies !!.) with
  | Some r => r
  | None => TransportFailure "No route to host"
  end.

Definition ok (markup : string) : reply :=
  Answered (Response 200 "OK" markup).

Definition all_down : list reply :=
  [ TransportFailure "Connection refused";
    Answered (Response 503 "Service Unavailable" "<html/>");
    Answered (Response 404 "Not Found" EmptyString);
    TransportFailure "Read timed out" ].

(** No period that yields a document: three requests that fail, and an
    answer without a result element. *)
Definition third_period_broken : list reply :=
  [ TransportFailure "Connection refused";
    Answered (Response 503 "Service Unavailable" "<html/>");
    ok "<html/>";
    TransportFailure "Read timed out" ].

(** Every period answered with the error marker. *)
Definition all_unavailable : list reply :=
  [ ok "<result><RT_ERROR/></result>"; ok "<result><RT_ERROR/></result>";
    ok "<result><RT_ERROR/></result>"; ok "<result><RT_ERROR/></result>" ].

Definition second_period_broken : list reply :=
  [ ok "<result><Gradebook/></result>"; ok "<html/>";
    ok "<result><Gradebook/></result>"; ok "<result><Gradebook/></result>" ].

Definition third_period_unavailable : list reply :=
  [ ok "<result><Gradebook/></result>"; ok "<result><Gradebook/></result>";
    ok "<result><RT_ERROR/></result>"; ok "<result><Gradebook/></result>" ].

(** A world with the credentials in its configuration and an old output
    file, and worlds without credentials, with and without a terminal to
    read them from. *)
Definition configured : world :=
  {| environ := {[ "STUDENTVUE_USERNAME" := "alice" ]};
     dotenv := {[ "STUDENTVUE_PASSWORD" := "secret";
                  "STUDENTVUE_USERNAME" := "bob" ]};
     stdin := [];
     files := {[ "grades.csv" := [["stale"; "record"]] ]};
     fs_readonly := false;
     disk_quota := None;
     trace := [] |}.

Definition interactive : world :=
  {| environ := {[ "STUDENTVUE_USERNAME" := EmptyString ]};
     dotenv := ∅;
     stdin := ["alice"; "secret"; "more"];
     files := ∅;
     fs_readonly := false;
     disk_quota := None;
     trace := [] |}.




Definition readonly : world :=
  {| environ := {[ "STUDENTVUE_USERNAME" := "alice";
                   "STUDENTVUE_PASSWORD" := "secret" ]};
     dotenv := ∅; stdin := []; files := ∅;
     fs_readonly := true; disk_quota := None; trace := [] |}.

End Sample.

(** ** Vocabulary for the traffic *)

(** What goes over the wire and when the script pauses: the requests, with
    their address, and the sleeps, in the order in which they happen. *)
Definition wire (e : event) : option (string * string + nat) :=
  match e with
  | EvPost url body => Some (inl (url, body))
  | EvSleep ms => Some (inr ms)
  | _ => None
  end.

Definition timeline (w : world) : list (string * string + nat) :=
  omap wire (trace w).


(** The exception of opening the output file on a read-only file system. *)
Definition permission_denied : exn :=
  Exn OSError "[Errno 13] Permission denied: 'grades.csv'".

(** ** More sample worlds *)

Module Scenario.

(** The username set to nothing in the environment, and both values in
    the [.env] file. *)
Definition masked : world :=
  {| environ := {[ "STUDENTVUE_USERNAME" := EmptyString ]};
     dotenv := {[ "STUDENTVUE_USERNAME" := "bob";
                  "STUDENTVUE_PASSWORD" := "hunter2" ]};
     stdin := ["alice"; "secret"];
     files := ∅; fs_readonly := false; disk_quota := None; trace := [] |}.

(** Both values in the environment, and others in the [.env] file. *)
Definition overridden : world :=
  {| environ := {[ "STUDENTVUE_USERNAME" := "alice";
                   "STUDENTVUE_PASSWORD" := "secret" ]};
     dotenv := {[ "STUDENTVUE_USERNAME" := "bob";
                  "STUDENTVUE_PASSWORD" := "hunter2" ]};
     stdin := [];
     files := ∅; fs_readonly := false; disk_quota := None; trace := [] |}.

End Scenario.

(** * Properties *)

(** ** The world under the primitive updates *)

Lemma printed_log e w :
  printed (log e w)
  = printed w ++ match e with EvPrint s => [s] | _ => [] end.
Proof.
  unfold printed; simpl. rewrite omap_app. f_equal. by destruct e.
Qed.

Lemma posted_log e w :
  posted (log e w)
  = posted w ++ match e with EvPost _ b => [b] | _ => [] end.
Proof.
  unfold posted; simpl. rewrite omap_app. f_equal. by destruct e.
Qed.

Lemma prompts_log e w :
  prompts (log e w)
  = prompts w ++ match e with
                 | EvInput _ | EvGetpass _ => [e]
                 | _ => []
                 end.
Proof.
  unfold prompts; simpl. rewrite List.filter_app. f_equal. by destruct e.
Qed.

Lemma file_rows_log path e w : file_rows path (log e w) = file_rows path w.
Proof. reflexivity. Qed.

Lemma file_rows_write_record path r w :
  file_rows path (write_record path r w) = file_rows path w ++ [r].
Proof. unfold file_rows at 1; simpl. by rewrite lookup_insert_eq. Qed.

Lemma file_rows_write_record_ne path path' r w :
  path ≠ path' →
  file_rows path' (write_record path r w) = file_rows path' w.
Proof. intros ?. unfold file_rows; simpl. by rewrite lookup_insert_ne. Qed.

Lemma append_rows_app path rs1 rs2 w :
  append_rows path (rs1 ++ rs2) w
  = append_rows path rs2 (append_rows path rs1 w).
Proof. apply fold_left_app. Qed.

Lemma file_rows_append_rows path rs w :
  file_rows path (append_rows path rs w) = file_rows path w ++ rs.
Proof.
  revert w. induction rs as [|r rs IH]; intros w; simpl.
  - by rewrite app_nil_r.
  - change (file_rows path (append_rows path rs (write_record path r w))
            = file_rows path w ++ r :: rs).
    rewrite IH, file_rows_write_record. by rewrite <- app_assoc.
Qed.

Lemma file_rows_append_rows_ne path path' rs w :
  path ≠ path' →
  file_rows path' (append_rows path rs w) = file_rows path' w.
Proof.
  intros Hne. revert w. induction rs as [|r rs IH]; intros w; simpl; [done|].
  change (file_rows path' (append_rows path rs (write_record path r w))
          = file_rows path' w).
  by rewrite IH, file_rows_write_record_ne.
Qed.

Lemma trace_append_rows path rs w : trace (append_rows path rs w) = trace w.
Proof.
  revert w. induction rs as [|r rs IH]; intros w; simpl; [done|].
  change (trace (append_rows path rs (write_record path r w)) = trace w).
  by rewrite IH.
Qed.

Lemma stdin_append_rows path rs w : stdin (append_rows path rs w) = stdin w.
Proof.
  revert w. induction rs as [|r rs IH]; intros w; simpl; [done|].
  change (stdin (append_rows path rs (write_record path r w)) = stdin w).
  by rewrite IH.
Qed.

Lemma quota_append_rows path rs w :
  disk_quota w = None → disk_quota (append_rows path rs w) = None.
Proof.
  revert w. induction rs as [|r rs IH]; intros w Hq; simpl; [done|].
  change (disk_quota (append_rows path rs (write_record path r w)) = None).
  apply IH. simpl. by rewrite Hq.
Qed.

Lemma printed_append_rows path rs w :
  printed (append_rows path rs w) = printed w.
Proof. unfold printed. by rewrite trace_append_rows. Qed.

Lemma posted_append_rows path rs w :
  posted (append_rows path rs w) = posted w.
Proof. unfold posted. by rewrite trace_append_rows. Qed.

Lemma prompts_append_rows path rs w :
  prompts (append_rows path rs w) = prompts w.
Proof. unfold prompts. by rewrite trace_append_rows. Qed.

Lemma logs_app es1 es2 w : logs (es1 ++ es2) w = logs es2 (logs es1 w).
Proof. apply fold_left_app. Qed.

Lemma trace_logs es w : trace (logs es w) = trace w ++ es.
Proof.
  revert w. induction es as [|e es IH]; intros w; simpl.
  - by rewrite app_nil_r.
  - change (trace (logs es (log e w)) = trace w ++ e :: es).
    rewrite IH. simpl. by rewrite <- app_assoc.
Qed.

Lemma file_rows_logs path es w : file_rows path (logs es w) = file_rows path w.
Proof.
  revert w. induction es as [|e es IH]; intros w; simpl; [done|].
  change (file_rows path (logs es (log e w)) = file_rows path w).
  by rewrite IH.
Qed.

Lemma quota_logs es w : disk_quota (logs es w) = disk_quota w.
Proof.
  revert w. induction es as [|e es IH]; intros w; simpl; [done|].
  change (disk_quota (logs es (log e w)) = disk_quota w). by rewrite IH.
Qed.

Lemma stdin_logs es w : stdin (logs es w) = stdin w.
Proof.
  revert w. induction es as [|e es IH]; intros w; simpl; [done|].
  change (stdin (logs es (log e w)) = stdin w). by rewrite IH.
Qed.

(** ** Loops that only write rows *)

Lemma writerow_run path row w :
  disk_quota w = None →
  writerow path row w = (Ok tt, append_rows path [csv_record row] w).
Proof.
  intros Hq. unfold writerow, append_rows, write_record; simpl.
  by rewrite Hq.
Qed.

(** If every turn of a loop appends the rows [rows_of x], the loop appends
    their concatenation. *)
Lemma for_each_appends {A : Type} path (rows_of : A → list record)
    (body : A → IO unit) (l : list A) :
  (∀ x w, x ∈ l → disk_quota w = None →
          body x w = (Ok tt, append_rows path (rows_of x) w)) →
  ∀ w, disk_quota w = None →
       for_each l body w = (Ok tt, append_rows path (flat_map rows_of l) w).
Proof.
  induction l as [|x l IH]; intros Hbody w Hq; simpl; [done|].
  unfold mbind, IO_bind.
  rewrite Hbody by (done || constructor).
  rewrite IH.
  - by rewrite append_rows_app.
  - intros y w' Hy. apply Hbody. by constructor.
  - by apply quota_append_rows.
Qed.

Lemma flat_map_fmap {A B C : Type} (f : B → C) (g : A → list B) (l : list A) :
  flat_map (λ x, f <$> g x) l = f <$> flat_map g l.
Proof.
  induction l as [|x l IH]; simpl; [done|]. by rewrite fmap_app, IH.
Qed.

Lemma omap_one {A B : Type} (f : A → option B) (x : A) :
  omap f [x] = option_list (f x).
Proof. simpl. by destruct (f x). Qed.

Lemma flat_map_singleton {A B : Type} (f : A → B) (l : list A) :
  flat_map (λ x, [f x]) l = f <$> l.
Proof. induction l as [|x l IH]; simpl; [done|]. by rewrite IH. Qed.

Lemma mark_loop_run writer course mark w :
  disk_quota w = None →
  (let mark_name := get mark "MarkName" in
   let calculated_score := get mark "CalculatedScoreString" in
   let assignments := find_all mark "Assignment" in
   match assignments with
   | [] =>
       writerow writer
         [ mark_name; get course "Title"; get course "Room";
           get course "Staff"; get course "Period"; calculated_score;
           mark_name; Some "N/A"; Some "N/A"; Some "N/A"; Some "N/A";
           Some "N/A"; Some "N/A"; Some "N/A" ]
   | _ :: _ =>
       for_each assignments (λ assignment,
         writerow writer
           [ mark_name; get course "Title"; get course "Room";
             get course "Staff"; get course "Period"; calculated_score;
             mark_name; get assignment "Measure"; get assignment "Type";
             get assignment "Date"; get assignment "DueDate";
             get assignment "Score"; get assignment "Points";
             get assignment "Notes" ])
   end) w
  = (Ok tt, append_rows writer (csv_record <$> mark_rows course mark) w).
Proof.
  intros Hq. unfold mark_rows. cbv zeta.
  destruct (find_all mark "Assignment") as [|a l] eqn:Ha.
  - by rewrite writerow_run.
  - rewrite (for_each_appends writer
               (λ a, [csv_record (assignment_row course mark a)])); [|by auto using writerow_run|done].
    rewrite flat_map_singleton. by rewrite <- list_fmap_compose.
Qed.

(** [write_data_to_csv] appends the rows of the document, in order. *)
Lemma write_data_to_csv_run writer soup w :
  disk_quota w = None →
  write_data_to_csv writer soup w
  = (Ok tt, append_rows writer (csv_record <$> soup_rows soup) w).
Proof.
  intros Hq. unfold write_data_to_csv, soup_rows. cbv zeta.
  rewrite <- flat_map_fmap.
  apply for_each_appends; [|done].
  intros course w1 _ Hq1. unfold course_rows.
  rewrite <- flat_map_fmap.
  apply for_each_appends; [|done].
  intros mark w2 _ Hq2. by apply mark_loop_run.
Qed.

Lemma write_data_to_csv_writes writer soup :
  writes_rows (write_data_to_csv writer soup) writer (soup_rows soup).
Proof.
  intros w Hq. eexists. split; [by apply write_data_to_csv_run|].
  apply file_rows_append_rows.
Qed.

(** ** The tree of a document *)

Lemma descendants_Tag nm a cs :
  descendants (Tag nm a cs) = flat_map (λ c, c :: descendants c) cs.
Proof.
  simpl. induction cs as [|c cs IH]; simpl; [done|]. by rewrite IH.
Qed.

Lemma elem_of_flat_map {A B : Type} (f : A → list B) (l : list A) (y : B) :
  y ∈ flat_map f l ↔ ∃ x, x ∈ l ∧ y ∈ f x.
Proof.
  rewrite list_elem_of_In, in_flat_map.
  split; intros (x & Hx & Hy); exists x; by rewrite ?list_elem_of_In in *.
Qed.

Lemma elem_of_descendants_Tag x nm a cs :
  x ∈ descendants (Tag nm a cs) ↔ ∃ c, c ∈ cs ∧ (x = c ∨ x ∈ descendants c).
Proof.
  rewrite descendants_Tag, elem_of_flat_map.
  split; intros (c & Hc & Hx); exists c; (split; [done|]).
  - by apply elem_of_cons in Hx.
  - by apply elem_of_cons.
Qed.

Lemma descendants_trans n c x :
  c ∈ descendants n → x ∈ descendants c → x ∈ descendants n.
Proof.
  revert c x. induction n as [nm a cs IH|s] using node_children_ind;
    intros c x Hc Hx.
  - apply elem_of_descendants_Tag in Hc as (k & Hk & Hc).
    apply elem_of_descendants_Tag. exists k. split; [done|]. right.
    destruct Hc as [->|Hc]; [done|].
    rewrite Forall_forall in IH. eapply IH; eauto.
  - by apply not_elem_of_nil in Hc.
Qed.

Lemma find_all_descendant n nm x : x ∈ find_all n nm → x ∈ descendants n.
Proof.
  unfold find_all. rewrite !list_elem_of_In, filter_In. tauto.
Qed.

Lemma find_all_named n nm x : x ∈ find_all n nm → tag_name x = Some nm.
Proof.
  unfold find_all. rewrite list_elem_of_In, filter_In.
  intros [_ H]. destruct x as [nm' a cs|s]; simpl in *; [|done].
  by destruct (decide (nm' = nm)) as [->|].
Qed.

(** A missing attribute is a [None]. *)
Lemma get_missing nm a cs key :
  a !! key = None ↔ get (Tag nm a cs) key = None.
Proof. reflexivity. Qed.

(** ** The rows of a document *)

Lemma soup_rows_split soup cs1 course cs2 ms1 mark ms2 :
  find_all soup "Course" = cs1 ++ course :: cs2 →
  find_all course "Mark" = ms1 ++ mark :: ms2 →
  soup_rows soup
  = rows_before cs1 course ms1 ++ mark_rows course mark
      ++ rows_after course ms2 cs2.
Proof.
  intros Hc Hm. unfold soup_rows, rows_before, rows_after.
  rewrite Hc, flat_map_app. simpl. unfold course_rows at 2.
  rewrite Hm, flat_map_app. simpl. by rewrite <- !app_assoc.
Qed.

(** Every row belongs to one Mark of one Course: it is either the
    placeholder row of a Mark without assignments, or the row of one
    Assignment of the Mark. *)
Lemma soup_rows_inv soup row :
  row ∈ soup_rows soup →
  ∃ course mark,
    course ∈ find_all soup "Course" ∧ mark ∈ find_all course "Mark" ∧
    ((find_all mark "Assignment" = [] ∧ row = placeholder_row course mark) ∨
     (∃ assignment, assignment ∈ find_all mark "Assignment" ∧
                    row = assignment_row course mark assignment)).
Proof.
  unfold soup_rows, course_rows.
  rewrite elem_of_flat_map. intros (course & Hc & Hrow).
  apply elem_of_flat_map in Hrow as (mark & Hm & Hrow).
  exists course, mark. do 2 (split; [done|]).
  unfold mark_rows in Hrow.
  destruct (find_all mark "Assignment") as [|a l] eqn:Ha.
  - left. split; [done|]. by apply list_elem_of_singleton in Hrow.
  - right. apply list_elem_of_fmap in Hrow as (x & -> & Hx).
    by exists x.
Qed.

Lemma soup_rows_length soup row : row ∈ soup_rows soup → length row = 14.
Proof.
  intros H. apply soup_rows_inv in H as (c & m & _ & _ & [[_ ->]|(a & _ & ->)]);
    reflexivity.
Qed.

Lemma writes_rows_split writer soup cs1 course cs2 ms1 mark ms2 block :
  find_all soup "Course" = cs1 ++ course :: cs2 →
  find_all course "Mark" = ms1 ++ mark :: ms2 →
  mark_rows course mark = block →
  writes_rows (write_data_to_csv writer soup) writer
    (rows_before cs1 course ms1 ++ block ++ rows_after course ms2 cs2).
Proof.
  intros Hc Hm <-.
  rewrite <- (soup_rows_split soup cs1 course cs2 ms1 mark ms2) by done.
  apply write_data_to_csv_writes.
Qed.

(** Case analysis on a position of [column_source] or [csv_header]. *)
Ltac each_column i tac :=
  let rec go n :=
    lazymatch n with
    | O => by simplify_eq/=
    | S ?k => destruct i as [|i]; [simplify_eq/=; tac | go k]
    end in
  go 14.

(** C2. Each time the loops of [write_data_to_csv] reach a Mark element in
    which [find_all] finds no Assignment element, exactly one row is
    written for it, between the rows of the Marks before and after it; the
    row starts with the seven Course and Mark fields, and its seven
    assignment fields all hold the placeholder value. *)
Theorem mark_without_assignments_one_row
    writer soup cs1 course cs2 ms1 mark ms2 :
  find_all soup "Course" = cs1 ++ course :: cs2 →
  find_all course "Mark" = ms1 ++ mark :: ms2 →
  find_all mark "Assignment" = [] →
  writes_rows (write_data_to_csv writer soup) writer
    (rows_before cs1 course ms1 ++ [placeholder_row course mark]
       ++ rows_after course ms2 cs2)
  ∧ take 7 (placeholder_row course mark) = shared_fields course mark
  ∧ (∀ i key, column_source !! i = Some (OfAssignment, key) →
              placeholder_row course mark !! i = Some (Some PLACEHOLDER)).
Proof.
  intros Hc Hm Ha. split; [|split].
  - apply (writes_rows_split writer soup cs1 course cs2 ms1 mark ms2);
      [done..|]. unfold mark_rows. by rewrite Ha.
  - reflexivity.
  - intros i key Hi. each_column i done.
Qed.

(** C3. Each time the loops reach a Mark element in which [find_all] finds
    the Assignment elements [assignments], at least one, exactly one row
    per Assignment is written for it, in document order; the row of an
    Assignment is the seven Course and Mark fields of this Course and this
    Mark followed by the seven fields of that Assignment. *)
Theorem mark_with_assignments_rows
    writer soup cs1 course cs2 ms1 mark ms2 assignments :
  find_all soup "Course" = cs1 ++ course :: cs2 →
  find_all course "Mark" = ms1 ++ mark :: ms2 →
  find_all mark "Assignment" = assignments →
  assignments ≠ [] →
  writes_rows (write_data_to_csv writer soup) writer
    (rows_before cs1 course ms1
       ++ (assignment_row course mark <$> assignments)
       ++ rows_after course ms2 cs2)
  ∧ length (assignment_row course mark <$> assignments) = length assignments
  ∧ (∀ k assignment,
       assignments !! k = Some assignment →
       (assignment_row course mark <$> assignments) !! k
       = Some (shared_fields course mark ++ assignment_fields assignment)).
Proof.
  intros Hc Hm Ha Hne. split; [|split].
  - apply (writes_rows_split writer soup cs1 course cs2 ms1 mark ms2);
      [done..|]. unfold mark_rows. rewrite Ha.
    by destruct assignments.
  - apply length_fmap.
  - intros k a Hk. by rewrite list_lookup_fmap, Hk.
Qed.

(** C9. The placeholder is the literal string N/A: the record written for
    a Mark without assignments holds it in each of the seven columns whose
    header is that of an assignment field. *)
Theorem placeholder_is_NA writer soup cs1 course cs2 ms1 mark ms2 w :
  find_all soup "Course" = cs1 ++ course :: cs2 →
  find_all course "Mark" = ms1 ++ mark :: ms2 →
  find_all mark "Assignment" = [] →
  disk_quota w = None →
  ∃ w' r,
    write_data_to_csv writer soup w = (Ok tt, w') ∧
    file_rows writer w'
    = file_rows writer w ++ (csv_record <$> rows_before cs1 course ms1)
        ++ [r] ++ (csv_record <$> rows_after course ms2 cs2) ∧
    length r = 14 ∧
    ∀ i h, csv_header !! i = Some h → h ∈ assignment_columns →
           r !! i = Some "N/A".
Proof.
  intros Hc Hm Ha Hq.
  assert (mark_rows course mark = [placeholder_row course mark]) as Hblock
    by (unfold mark_rows; by rewrite Ha).
  destruct (writes_rows_split writer soup cs1 course cs2 ms1 mark ms2
              _ Hc Hm Hblock w Hq) as (w' & Hrun & Hrows).
  exists w', (csv_record (placeholder_row course mark)).
  split; [done|]. split; [|split].
  - rewrite Hrows. by rewrite !fmap_app.
  - reflexivity.
  - intros i h Hi Hh. unfold assignment_columns in Hh.
    each_column i ltac:(try done; exfalso;
                        repeat (apply elem_of_cons in Hh as [?|Hh]; [done|]);
                        by apply elem_of_nil in Hh).
Qed.

Lemma csv_record_lookup row i v :
  row !! i = Some v → csv_record row !! i = Some (csv_field v).
Proof. intros H. unfold csv_record. by rewrite list_lookup_fmap, H. Qed.

Lemma shared_fields_course course mark tail i key :
  column_source !! i = Some (OfCourse, key) →
  (shared_fields course mark ++ tail) !! i = Some (get course key).
Proof. intros Hi. each_column i done. Qed.

Lemma shared_fields_mark course mark tail i key :
  column_source !! i = Some (OfMark, key) →
  (shared_fields course mark ++ tail) !! i = Some (get mark key).
Proof. intros Hi. each_column i done. Qed.

Lemma assignment_row_assignment course mark assignment i key :
  column_source !! i = Some (OfAssignment, key) →
  assignment_row course mark assignment !! i = Some (get assignment key).
Proof. intros Hi. each_column i done. Qed.

Lemma placeholder_row_assignment course mark i key :
  column_source !! i = Some (OfAssignment, key) →
  placeholder_row course mark !! i = Some (Some PLACEHOLDER).
Proof. intros Hi. each_column i done. Qed.

(** C7. Flattening never fails on a document, whatever attributes its
    elements carry: every field of every row is the result of [get] on the
    Course, the Mark or the Assignment of the row, which is [None] when the
    attribute is missing, and the writer makes an empty field of it. *)
Theorem flattening_tolerates_missing_attributes writer soup :
  writes_rows (write_data_to_csv writer soup) writer (soup_rows soup)
  ∧ (∀ nm (a : gmap string string) cs key,
       a !! key = None → get (Tag nm a cs) key = None)
  ∧ csv_field None = EmptyString
  ∧ ∀ row, row ∈ soup_rows soup →
      length row = 14 ∧
      ∃ course mark,
        course ∈ find_all soup "Course" ∧ mark ∈ find_all course "Mark" ∧
        (∀ i key, column_source !! i = Some (OfCourse, key) →
           row !! i = Some (get course key) ∧
           csv_record row !! i = Some (csv_field (get course key))) ∧
        (∀ i key, column_source !! i = Some (OfMark, key) →
           row !! i = Some (get mark key) ∧
           csv_record row !! i = Some (csv_field (get mark key))) ∧
        ((find_all mark "Assignment" = [] ∧
          ∀ i key, column_source !! i = Some (OfAssignment, key) →
            row !! i = Some (Some PLACEHOLDER)) ∨
         (∃ assignment,
            assignment ∈ find_all mark "Assignment" ∧
            ∀ i key, column_source !! i = Some (OfAssignment, key) →
              row !! i = Some (get assignment key) ∧
              csv_record row !! i = Some (csv_field (get assignment key)))).
Proof.
  split; [apply write_data_to_csv_writes|].
  split; [done|]. split; [done|].
  intros row Hrow. split; [by eapply soup_rows_length|].
  apply soup_rows_inv in Hrow as (course & mark & Hc & Hm & Hrow).
  exists course, mark. do 2 (split; [done|]).
  destruct Hrow as [[Ha ->]|(a & Ha & ->)].
  - split; [|split].
    + intros i key Hi.
      pose proof (shared_fields_course course mark
                    (replicate 7 (Some PLACEHOLDER)) i key Hi) as H.
      split; [done|]. by apply csv_record_lookup.
    + intros i key Hi.
      pose proof (shared_fields_mark course mark
                    (replicate 7 (Some PLACEHOLDER)) i key Hi) as H.
      split; [done|]. by apply csv_record_lookup.
    + left. split; [done|]. apply placeholder_row_assignment.
  - split; [|split].
    + intros i key Hi.
      pose proof (shared_fields_course course mark
                    (assignment_fields a) i key Hi) as H.
      split; [done|]. by apply csv_record_lookup.
    + intros i key Hi.
      pose proof (shared_fields_mark course mark
                    (assignment_fields a) i key Hi) as H.
      split; [done|]. by apply csv_record_lookup.
    + right. exists a. split; [done|]. intros i key Hi.
      pose proof (assignment_row_assignment course mark a i key Hi) as H.
      split; [done|]. by apply csv_record_lookup.
Qed.

(** ** Documents of the shape of a gradebook *)

Lemma find_all_Tag nm a cs target :
  find_all (Tag nm a cs) target
  = flat_map (λ c, (if is_named target c then [c] else [])
                     ++ find_all c target) cs.
Proof.
  unfold find_all. rewrite descendants_Tag.
  induction cs as [|c cs IH]; simpl; [done|].
  rewrite List.filter_app, IH. rewrite <- app_assoc.
  by destruct (is_named target c).
Qed.

Lemma layered_Tag nm a cs :
  layered (Tag nm a cs) = true ↔
  Forall (λ c, if is_named "Course" c then find_all c "Course" = []
               else is_named "Mark" c = false ∧ layered c = true) cs.
Proof.
  simpl. induction cs as [|c cs IH].
  - split; [by constructor|done].
  - rewrite Forall_cons, <- IH, andb_true_iff.
    destruct (is_named "Course" c).
    + destruct (find_all c "Course"); split; intros [H1 H2]; by split.
    + rewrite andb_true_iff, negb_true_iff. tauto.
Qed.

Lemma course_is_no_mark c :
  is_named "Course" c = true → is_named "Mark" c = false.
Proof.
  destruct c as [nm a cs|s]; simpl; [|done].
  destruct (decide (nm = "Course")) as [->|]; [|done]. by intros _.
Qed.

(** In a document of that shape the loops reach every Mark element once,
    in document order. *)
Lemma layered_marks n :
  layered n = true →
  find_all n "Mark"
  = flat_map (λ course, find_all course "Mark") (find_all n "Course").
Proof.
  induction n as [nm a cs IH|s] using node_children_ind; [|done].
  rewrite layered_Tag, !find_all_Tag. intros Hshape.
  induction cs as [|c cs IHcs]; simpl; [done|].
  apply Forall_cons in IH as [IHc IH].
  apply Forall_cons in Hshape as [Hc Hshape].
  rewrite flat_map_app, (IHcs IH Hshape).
  destruct (is_named "Course" c) eqn:Hcourse.
  - rewrite (course_is_no_mark c Hcourse), Hc. simpl.
    by rewrite app_nil_r.
  - destruct Hc as [-> Hc]. simpl. by rewrite (IHc Hc).
Qed.

Lemma mark_rows_length course mark :
  length (mark_rows course mark) = block_length mark.
Proof.
  unfold mark_rows, block_length.
  destruct (find_all mark "Assignment") as [|a l]; [done|].
  by rewrite length_fmap.
Qed.

Lemma flat_map_length {A B : Type} (f : A → list B) (l : list A) :
  length (flat_map f l) = list_sum (length ∘ f <$> l).
Proof.
  induction l as [|x l IH]; simpl; [done|]. by rewrite length_app, IH.
Qed.

(** The number of rows of a document of that shape: for each of its Mark
    elements, as many as it has Assignment elements, and one if it has
    none. *)
Lemma layered_row_count soup :
  layered soup = true →
  length (soup_rows soup) = list_sum (block_length <$> find_all soup "Mark").
Proof.
  intros Hshape. rewrite (layered_marks soup Hshape).
  unfold soup_rows. generalize (find_all soup "Course"). intros courses.
  induction courses as [|c courses IH]; simpl; [done|].
  rewrite length_app, fmap_app, list_sum_app, IH. f_equal.
  unfold course_rows. generalize (find_all c "Mark"). intros marks.
  induction marks as [|m marks IHm]; simpl; [done|].
  by rewrite length_app, mark_rows_length, IHm.
Qed.

(** Outside of that shape [find_all], which searches at any depth, makes
    the loops reach a Mark once for each Course above it, and never when
    there is none. *)
Lemma marks_are_reached_through_courses :
  layered Sample.gradebook = true ∧
  layered Sample.nested = false ∧ layered Sample.stray = false ∧
  soup_rows Sample.nested
  = [ placeholder_row Sample.outer_course Sample.q2;
      placeholder_row Sample.inner_course Sample.q2 ] ∧
  soup_rows Sample.stray = [].
Proof. repeat split; vm_compute; reflexivity. Qed.

(** ** Credentials *)

(** The prompt path of [get_credentials], on its own. *)
Lemma get_credentials_eq w :
  get_credentials w
  = let w1 := set_environ (environ w ∪ dotenv w) w in
    let username := environ w1 !! "STUDENTVUE_USERNAME" in
    let password := environ w1 !! "STUDENTVUE_PASSWORD" in
    match username, password with
    | Some u, Some p =>
        if truthy username && truthy password then
          (Ok (u, p),
           log (EvPrint "Credentials successfully loaded from .env file.") w1)
        else
          (print "No .env file detected. Please provide your credentials." ;;
           username ← input "Enter StudentVUE Username: ";
           password ← getpass "Enter StudentVUE Password: ";
           mret (username, password)) w1
    | _, _ =>
        (print "No .env file detected. Please provide your credentials." ;;
         username ← input "Enter StudentVUE Username: ";
         password ← getpass "Enter StudentVUE Password: ";
         mret (username, password)) w1
    end.
Proof.
  unfold get_credentials, load_dotenv, getenv.
  unfold mbind at 1 2 3, IO_bind at 1 2 3. cbv zeta.
  set (w1 := set_environ (environ w ∪ dotenv w) w).
  destruct (environ w1 !! "STUDENTVUE_USERNAME") as [u|];
    destruct (environ w1 !! "STUDENTVUE_PASSWORD") as [p|]; try reflexivity.
  destruct (truthy (Some u) && truthy (Some p)); reflexivity.
Qed.

(** [get_credentials] touches neither the file system nor the network. *)
Lemma get_credentials_frame w r w' :
  get_credentials w = (r, w') →
  files w' = files w ∧ fs_readonly w' = fs_readonly w ∧
  disk_quota w' = disk_quota w ∧ posted w' = posted w.
Proof.
  rewrite get_credentials_eq. cbv zeta.
  set (w1 := set_environ (environ w ∪ dotenv w) w).
  assert (∀ r w',
    (print "No .env file detected. Please provide your credentials." ;;
     username ← input "Enter StudentVUE Username: ";
     password ← getpass "Enter StudentVUE Password: ";
     mret (username, password)) w1 = (r, w') →
    files w' = files w ∧ fs_readonly w' = fs_readonly w ∧
    disk_quota w' = disk_quota w ∧ posted w' = posted w) as Hprompt.
  { clear. intros r w'. unfold mbind, IO_bind, print, input, getpass, mret,
      IO_ret. simpl.
    destruct (stdin w) as [|ul [|pl rest]]; simpl; intros [= <- <-];
      unfold posted; simpl; rewrite ?omap_app; simpl;
      rewrite ?app_nil_r; done. }
  destruct (environ w1 !! "STUDENTVUE_USERNAME") as [u|]; [|by apply Hprompt].
  destruct (environ w1 !! "STUDENTVUE_PASSWORD") as [p|]; [|by apply Hprompt].
  destruct (truthy (Some u) && truthy (Some p)); [|by apply Hprompt].
  intros [= <- <-]. rewrite posted_log. simpl. by rewrite app_nil_r.
Qed.

(** C5. When both values are present and non-empty in the configuration
    (the environment completed by the [.env] file), [get_credentials]
    returns them at once, reads nothing from the terminal and shows no
    prompt.  When either is absent or empty it shows the username prompt
    and then, once a line has been read, the password prompt without
    echo, and returns the two lines read. *)
Theorem credentials_from_configuration w :
  let env := environ w ∪ dotenv w in
  (∀ u p,
     env !! "STUDENTVUE_USERNAME" = Some u →
     env !! "STUDENTVUE_PASSWORD" = Some p →
     u ≠ EmptyString → p ≠ EmptyString →
     ∃ w', get_credentials w = (Ok (u, p), w') ∧
           prompts w' = prompts w ∧ stdin w' = stdin w ∧
           trace w'
           = trace w
               ++ [EvPrint "Credentials successfully loaded from .env file."])
  ∧ (env !! "STUDENTVUE_USERNAME" = None ∨
     env !! "STUDENTVUE_USERNAME" = Some EmptyString ∨
     env !! "STUDENTVUE_PASSWORD" = None ∨
     env !! "STUDENTVUE_PASSWORD" = Some EmptyString →
     match stdin w with
     | ul :: pl :: rest =>
         ∃ w', get_credentials w = (Ok (ul, pl), w') ∧ stdin w' = rest ∧
               trace w'
               = trace w
                   ++ [EvPrint "No .env file detected. Please provide your credentials.";
                       EvInput "Enter StudentVUE Username: ";
                       EvGetpass "Enter StudentVUE Password: "]
     | [ul] =>
         ∃ w', get_credentials w
               = (Raised (Exn EOFError "EOF when reading a line"), w') ∧
               trace w'
               = trace w
                   ++ [EvPrint "No .env file detected. Please provide your credentials.";
                       EvInput "Enter StudentVUE Username: ";
                       EvGetpass "Enter StudentVUE Password: "]
     | [] =>
         ∃ w', get_credentials w
               = (Raised (Exn EOFError "EOF when reading a line"), w') ∧
               trace w'
               = trace w
                   ++ [EvPrint "No .env file detected. Please provide your credentials.";
                       EvInput "Enter StudentVUE Username: "]
     end).
Proof.
  intros env. split.
  - intros u p Hu Hp Hune Hpne. rewrite get_credentials_eq. cbv zeta.
    change (environ (set_environ (environ w ∪ dotenv w) w)) with env.
    rewrite Hu, Hp. unfold truthy.
    destruct (decide (u = EmptyString)) as [|_]; [done|].
    destruct (decide (p = EmptyString)) as [|_]; [done|].
    simpl. eexists. split; [done|]. rewrite prompts_log. simpl.
    by rewrite app_nil_r.
  - intros Habsent.
    assert (get_credentials w
            = (print "No .env file detected. Please provide your credentials." ;;
               username ← input "Enter StudentVUE Username: ";
               password ← getpass "Enter StudentVUE Password: ";
               mret (username, password))
                (set_environ (environ w ∪ dotenv w) w)) as ->.
    { rewrite get_credentials_eq. cbv zeta.
      change (environ (set_environ (environ w ∪ dotenv w) w)) with env.
      destruct Habsent as [-> | [-> | [-> | ->]]]; try done.
      - by destruct (env !! "STUDENTVUE_PASSWORD").
      - by destruct (env !! "STUDENTVUE_USERNAME").
      - destruct (env !! "STUDENTVUE_USERNAME"); [|done].
        by rewrite andb_false_r. }
    unfold mbind, IO_bind, print, input, getpass, mret, IO_ret. simpl.
    destruct (stdin w) as [|ul [|pl rest]]; simpl;
      (eexists; split; [done|]); simpl; rewrite <- ?app_assoc; done.
Qed.

(** ** Substrings *)

Lemma prefix_spec (s1 s2 : string) :
  String.prefix s1 s2 = true ↔ ∃ rest, s2 = s1 +:+ rest.
Proof.
  revert s2. induction s1 as [|a s1 IH]; intros s2.
  - split; [intros _; by exists s2|intros _; by destruct s2].
  - destruct s2 as [|b s2]; simpl.
    + split; [done|]. by intros [rest [=]].
    + destruct (Ascii.ascii_dec a b) as [->|Hne].
      * rewrite IH. split; intros [rest Hrest]; exists rest.
        -- by rewrite Hrest.
        -- by injection Hrest.
      * split; [done|]. intros [rest [=]]. congruence.
Qed.

Lemma str_in_unfold (needle hay : string) :
  str_in needle hay
  = if String.prefix needle hay then true
    else match hay with
         | EmptyString => false
         | String _ rest => str_in needle rest
         end.
Proof. by destruct hay. Qed.

(** [str_in] is the test that [needle] occurs somewhere in [hay]. *)
Lemma str_in_spec (needle hay : string) :
  str_in needle hay = true ↔ ∃ before after, hay = before +:+ needle +:+ after.
Proof.
  induction hay as [|c hay IH]; rewrite str_in_unfold.
  - destruct (String.prefix needle EmptyString) eqn:Hp.
    + split; [intros _|done].
      apply prefix_spec in Hp as [rest Hrest]. by exists EmptyString, rest.
    + split; [done|]. intros (before & after & H).
      destruct before as [|b before]; [|done]. simpl in H.
      assert (String.prefix needle EmptyString = true) as Hp'
        by (apply prefix_spec; eauto).
      congruence.
  - destruct (String.prefix needle (String c hay)) eqn:Hp.
    + split; [intros _|done].
      apply prefix_spec in Hp as [rest Hrest]. by exists EmptyString, rest.
    + rewrite IH. split.
      * intros (before & after & ->). by exists (String c before), after.
      * intros (before & after & H). destruct before as [|b before].
        -- simpl in H.
           assert (String.prefix needle (String c hay) = true) as Hp'
             by (apply prefix_spec; eauto).
           congruence.
        -- injection H as _ ->. eauto.
Qed.

(** ** Events appended to the trace *)

Lemma posted_logs es w :
  posted (logs es w)
  = posted w ++ omap (λ e, match e with EvPost _ b => Some b | _ => None end) es.
Proof. unfold posted. by rewrite trace_logs, omap_app. Qed.

Lemma printed_logs es w :
  printed (logs es w)
  = printed w
      ++ omap (λ e, match e with EvPrint s => Some s | _ => None end) es.
Proof. unfold printed. by rewrite trace_logs, omap_app. Qed.

Lemma prompts_logs es w :
  prompts (logs es w)
  = prompts w ++ List.filter (λ e, match e with
                                   | EvInput _ | EvGetpass _ => true
                                   | _ => false
                                   end) es.
Proof. unfold prompts. by rewrite trace_logs, List.filter_app. Qed.

Lemma http_error_ranges code :
  http_error code
  = ((400 <=? code)%nat && (code <? 500)%nat)
    || ((500 <=? code)%nat && (code <? 600)%nat).
Proof.
  unfold http_error.
  destruct (400 <=? code)%nat eqn:H1, (code <? 500)%nat eqn:H2,
    (500 <=? code)%nat eqn:H3, (code <? 600)%nat eqn:H4; simpl; try done;
    repeat match goal with
      | H : (_ <=? _)%nat = true |- _ => apply Nat.leb_le in H
      | H : (_ <=? _)%nat = false |- _ => apply Nat.leb_gt in H
      | H : (_ <? _)%nat = true |- _ => apply Nat.ltb_lt in H
      | H : (_ <? _)%nat = false |- _ => apply Nat.ltb_ge in H
      end; lia.
Qed.

Section Fetch.

Context (encode : string → encoding) (service : string → string → reply)
  (parse_xml : string → node).

Local Abbreviation fetch := (fetch_gradebook_data encode service parse_xml).
Local Abbreviation outcome_of := (fetch_outcome encode service parse_xml).

(** A fetch returns or raises as [fetch_outcome] says, posts its request
    when the body can be encoded and nothing otherwise, does not pause,
    prompts for nothing, and only adds events to the trace. *)
Lemma fetch_run username password period w :
  ∃ es,
    fetch username password period w
    = (returned (outcome_of username password period), logs es w) ∧
    omap wire es
    = option_list
        (inl ∘ pair API_URL <$> request encode username password period) ∧
    omap (λ e, match e with EvPost _ b => Some b | _ => None end) es
    = option_list (request encode username password period) ∧
    List.filter (λ e, match e with
                      | EvInput _ | EvGetpass _ => true
                      | _ => false
                      end) es = [].
Proof.
  unfold fetch_gradebook_data, fetch_outcome, request, try_except,
    str_encode, session_post.
  cbv zeta. unfold mbind, IO_bind, print.
  destruct (encode (xml_request_body username password period))
    as [data|msg]; [|by eexists [_]].
  simpl.
  destruct (service API_URL data) as [msg|r].
  - eexists [_; _; _]. by simpl.
  - unfold raise_for_status. cbv zeta. rewrite http_error_ranges.
    destruct ((400 <=? status_code r)%nat && (status_code r <? 500)%nat).
    { eexists [_; _; _]. by simpl. }
    destruct ((500 <=? status_code r)%nat && (status_code r <? 600)%nat).
    { eexists [_; _; _]. by simpl. }
    simpl.
    destruct (find (parse_xml (content r)) "ProcessWebServiceRequestResult")
      as [t|]; simpl.
    + destruct (str_in "ERROR" (text t)); simpl; by eexists [_; _; _].
    + by eexists [_; _].
Qed.

(** One turn of the loop: the rows of the period are appended, unless the
    fetch raises. *)
Lemma period_step_run writer username password period w :
  disk_quota w = None →
  ∃ w',
    period_step encode service parse_xml writer username password period w
    = (match outcome_of username password period with
       | Crashed e => Raised e
       | _ => Ok tt
       end, w') ∧
    disk_quota w' = None ∧
    file_rows writer w'
    = file_rows writer w
        ++ (csv_record <$> period_rows encode service parse_xml
                             username password period) ∧
    (∀ path, path ≠ writer → file_rows path w' = file_rows path w) ∧
    posted w'
    = posted w ++ option_list (request encode username password period) ∧
    prompts w' = prompts w.
Proof.
  intros Hq. unfold period_step, period_rows.
  destruct (fetch_run username password period w)
    as (es & Hrun & _ & Hpost & Hpr).
  unfold mbind at 1, IO_bind at 1. rewrite Hrun.
  assert (disk_quota (logs es w) = None) as Hq' by by rewrite quota_logs.
  destruct (outcome_of username password period) as [|soup|e]; simpl.
  - eexists. split; [reflexivity|]. simpl.
    rewrite quota_logs, file_rows_log, file_rows_logs, app_nil_r.
    do 2 (split; [done|]). split.
    + intros path _. by rewrite file_rows_log, file_rows_logs.
    + rewrite posted_log, prompts_log, posted_logs, prompts_logs, Hpost, Hpr.
      simpl. by rewrite !app_nil_r.
  - unfold mbind, IO_bind. rewrite write_data_to_csv_run by done.
    eexists. split; [reflexivity|]. simpl.
    split; [by apply quota_append_rows|].
    rewrite file_rows_log, file_rows_append_rows, file_rows_logs.
    split; [done|]. split.
    + intros path Hne.
      by rewrite file_rows_log, file_rows_append_rows_ne, file_rows_logs.
    + rewrite posted_log, prompts_log, posted_append_rows,
        prompts_append_rows, posted_logs, prompts_logs, Hpost, Hpr.
      simpl. by rewrite !app_nil_r.
  - eexists. split; [reflexivity|].
    rewrite file_rows_logs, app_nil_r. do 2 (split; [done|]). split.
    + intros path _. by rewrite file_rows_logs.
    + rewrite posted_logs, prompts_logs, Hpost, Hpr. by rewrite app_nil_r.
Qed.

End Fetch.

(** ** The whole run *)

Section Run.

Context (encode : string → encoding) (service : string → string → reply)
  (parse_xml : string → node).

Local Abbreviation fetch := (fetch_gradebook_data encode service parse_xml).
Local Abbreviation outcome_of := (fetch_outcome encode service parse_xml).
Local Abbreviation rows_of := (period_rows encode service parse_xml).
Local Abbreviation step := (period_step encode service parse_xml).
Local Abbreviation run := (run_periods encode service parse_xml).

(** [main] with the body of its loop named. *)
Lemma main_eq :
  main encode service parse_xml
  = (print banner ;;
     '(username, password) ← get_credentials;
     try_except
       (f ← open_w OUTPUT_FILENAME;
        writerow f (Some <$> csv_header) ;;
        for_each (range REPORTING_PERIODS) (step f username password) ;;
        print msg_complete)
       (λ e, if isinstance e IOError then Some (print (msg_file_error e))
             else if isinstance e Exception
                  then Some (print (msg_unexpected e))
                  else None)).
Proof. reflexivity. Qed.

(** [main], once the banner is printed. *)
Lemma main_unfold w :
  main encode service parse_xml w
  = match get_credentials (log (EvPrint banner) w) with
    | (Ok (username, password), w1) =>
        try_except
          (export encode service parse_xml username password)
          (λ e, if isinstance e IOError
                then Some (print (msg_file_error e))
                else if isinstance e Exception
                     then Some (print (msg_unexpected e))
                     else None) w1
    | (Raised e, w1) => (Raised e, w1)
    end.
Proof.
  rewrite main_eq. unfold mbind at 1, IO_bind at 1, print at 1.
  unfold mbind at 1, IO_bind at 1.
  by destruct (get_credentials (log (EvPrint banner) w))
    as [[[username password]|e] w1].
Qed.

(** The two exceptions a fetch lets through: that of a body that cannot
    be encoded, and that of an answer without a result element.  Neither
    is an [IOError]. *)
Lemma crashed_inv username password period e :
  outcome_of username password period = Crashed e →
  (∃ msg, encode (xml_request_body username password period)
          = Unencodable msg ∧ e = Exn UnicodeEncodeError msg) ∨
  (∃ data r, encode (xml_request_body username password period)
             = Bytes data ∧
             service API_URL data = Answered r ∧
             http_error (status_code r) = false ∧
             find (parse_xml (content r)) "ProcessWebServiceRequestResult"
             = None ∧
             e = no_text_attribute).
Proof.
  unfold fetch_outcome.
  destruct (encode _) as [data|msg]; [|intros [= <-]; left; by exists msg].
  destruct (service _ _) as [|r] eqn:Hsvc; [done|].
  destruct (http_error _) eqn:Hst; [done|].
  destruct (find _ _) as [t|] eqn:Hfind; [by destruct (str_in _ _)|].
  intros [= <-]. right. by exists data, r.
Qed.

Lemma crashed_unexpected username password period e :
  outcome_of username password period = Crashed e →
  isinstance e IOError = false ∧ isinstance e Exception = true.
Proof.
  intros [(msg & _ & ->)|(data & r & _ & _ & _ & _ & ->)]%crashed_inv; done.
Qed.

(** The exception that stops the loop is that of one of its fetches. *)
Lemma run_periods_stop username password periods asked rows e :
  run username password periods = (asked, rows, Some e) →
  ∃ period, period ∈ periods ∧ outcome_of username password period = Crashed e.
Proof.
  revert asked rows. induction periods as [|p l IH]; intros asked rows; simpl.
  - done.
  - destruct (outcome_of username password p) as [|soup|e'] eqn:Ho.
    + destruct (run username password l) as [[a r'] s] eqn:Hrun.
      intros [= <- <- ->]. destruct (IH _ _ eq_refl) as (q & Hq & Hcrash).
      exists q. split; [by constructor|done].
    + destruct (run username password l) as [[a r'] s] eqn:Hrun.
      intros [= <- <- ->]. destruct (IH _ _ eq_refl) as (q & Hq & Hcrash).
      exists q. split; [by constructor|done].
    + intros [= <- <- <-]. exists p. split; [constructor|done].
Qed.

(** The loop over the periods. *)
Lemma periods_loop_run writer username password periods w :
  disk_quota w = None →
  ∃ w',
    for_each periods (step writer username password) w
    = (match (run username password periods).2 with
       | None => Ok tt
       | Some e => Raised e
       end, w') ∧
    disk_quota w' = None ∧
    file_rows writer w'
    = file_rows writer w
        ++ (csv_record <$> (run username password periods).1.2) ∧
    posted w'
    = posted w
        ++ omap (request encode username password)
             (run username password periods).1.1 ∧
    prompts w' = prompts w.
Proof.
  revert w. induction periods as [|p l IH]; intros w Hq.
  - exists w. simpl. by rewrite !app_nil_r.
  - destruct (period_step_run encode service parse_xml
                writer username password p w Hq)
      as (w1 & Hstep & Hq1 & Hrows1 & _ & Hpost1 & Hpr1).
    destruct (IH w1 Hq1) as (w2 & Hloop & Hq2 & Hrows2 & Hpost2 & Hpr2).
    simpl for_each. unfold mbind at 1, IO_bind at 1. rewrite Hstep.
    simpl run_periods. unfold period_rows in *.
    destruct (outcome_of username password p) as [|soup|e] eqn:Ho.
    + destruct (run username password l) as [[asked rows] stop].
      cbn [fst snd] in *.
      exists w2. rewrite Hloop, Hq2, Hrows2, Hpost2, Hpr2, Hrows1, Hpost1, Hpr1.
      rewrite (omap_app _ [p] asked), omap_one.
      by rewrite app_nil_r, <- !app_assoc.
    + destruct (run username password l) as [[asked rows] stop].
      cbn [fst snd] in *.
      exists w2. rewrite Hloop, Hq2, Hrows2, Hpost2, Hpr2, Hrows1, Hpost1, Hpr1.
      rewrite (omap_app _ [p] asked), omap_one.
      by rewrite fmap_app, <- !app_assoc.
    + exists w1. cbn [fst snd]. rewrite omap_one.
      by rewrite Hq1, Hrows1, Hpost1, Hpr1.
Qed.

Lemma last_printed_log s w : last (printed (log (EvPrint s) w)) = Some s.
Proof. rewrite printed_log. apply last_snoc. Qed.

(** The [try] block of [main], in a world where the file can be opened
    and the disk does not fill up. *)
Lemma export_run username password w :
  fs_readonly w = false →
  disk_quota w = None →
  ∃ w',
    export encode service parse_xml username password w
    = (match (run username password (range REPORTING_PERIODS)).2 with
       | None => Ok tt
       | Some e => Raised e
       end, w') ∧
    file_rows OUTPUT_FILENAME w'
    = csv_header
        :: (csv_record
              <$> (run username password (range REPORTING_PERIODS)).1.2) ∧
    posted w'
    = posted w
        ++ omap (request encode username password)
             (run username password (range REPORTING_PERIODS)).1.1 ∧
    prompts w' = prompts w ∧
    ((run username password (range REPORTING_PERIODS)).2 = None →
     last (printed w') = Some msg_complete).
Proof.
  intros Hro Hq. unfold export.
  unfold mbind at 1, IO_bind at 1, open_w. rewrite Hro, Hq.
  set (w1 := set_file OUTPUT_FILENAME [] None w).
  assert (disk_quota w1 = None) as Hq1 by done.
  unfold mbind at 1, IO_bind at 1. rewrite writerow_run by done.
  set (w2 := append_rows OUTPUT_FILENAME [csv_record (Some <$> csv_header)] w1).
  assert (disk_quota w2 = None) as Hq2 by by apply quota_append_rows.
  destruct (periods_loop_run OUTPUT_FILENAME username password
              (range REPORTING_PERIODS) w2 Hq2)
    as (w3 & Hloop & Hq3 & Hrows & Hpost & Hpr).
  unfold mbind at 1, IO_bind at 1. rewrite Hloop.
  assert (file_rows OUTPUT_FILENAME w2 = [csv_header]) as Hhdr.
  { unfold w2. rewrite file_rows_append_rows. unfold w1, file_rows. simpl.
    by rewrite lookup_insert_eq. }
  assert (posted w2 = posted w) as Hpost2
    by (unfold w2; by rewrite posted_append_rows).
  assert (prompts w2 = prompts w) as Hpr2
    by (unfold w2; by rewrite prompts_append_rows).
  rewrite Hhdr in Hrows. rewrite Hpost2 in Hpost. rewrite Hpr2 in Hpr.
  destruct ((run username password (range REPORTING_PERIODS)).2) as [e|].
  - exists w3. by rewrite Hrows, Hpost, Hpr.
  - eexists. split; [reflexivity|].
    rewrite file_rows_log, posted_log, prompts_log, Hrows, Hpost, Hpr.
    simpl. rewrite !app_nil_r. do 3 (split; [done|]).
    intros _. apply last_printed_log.
Qed.

(** A run of [main] once the credentials are there, in a world where the
    file can be opened and the disk does not fill up: the file holds the
    header and the rows of the periods fetched, whatever it held before,
    and the last line printed tells how the run ended. *)
Lemma main_run w username password w1 :
  get_credentials (log (EvPrint banner) w) = (Ok (username, password), w1) →
  fs_readonly w = false →
  disk_quota w = None →
  ∃ w',
    main encode service parse_xml w = (Ok tt, w') ∧
    file_rows OUTPUT_FILENAME w'
    = csv_header
        :: (csv_record
              <$> (run username password (range REPORTING_PERIODS)).1.2) ∧
    posted w'
    = posted w
        ++ omap (request encode username password)
             (run username password (range REPORTING_PERIODS)).1.1 ∧
    prompts w' = prompts w1 ∧
    last (printed w')
    = Some (match (run username password (range REPORTING_PERIODS)).2 with
            | None => msg_complete
            | Some e => msg_unexpected e
            end).
Proof.
  intros Hcred Hro Hq. rewrite main_unfold, Hcred.
  destruct (get_credentials_frame _ _ _ Hcred) as (_ & Hro1 & Hq1 & Hpost1).
  rewrite posted_log in Hpost1. simpl in Hpost1, Hro1, Hq1.
  rewrite app_nil_r in Hpost1.
  destruct (export_run username password w1) as (w2 & Hrun & Hrows & Hpost & Hpr & Hlast);
    [congruence..|].
  unfold try_except. rewrite Hrun.
  destruct ((run username password (range REPORTING_PERIODS)).2) as [e|] eqn:Hstop.
  - assert (isinstance e IOError = false ∧ isinstance e Exception = true)
      as [Hio Hexn].
    { destruct (run username password (range REPORTING_PERIODS))
        as [[asked rows] stop] eqn:Hr. simpl in Hstop. subst stop.
      apply run_periods_stop in Hr as (q & _ & Hcrash).
      by eapply crashed_unexpected. }
    rewrite Hio, Hexn. eexists. split; [reflexivity|].
    rewrite file_rows_log, posted_log, prompts_log, Hrows, Hpost, Hpr, Hpost1.
    simpl. rewrite !app_nil_r. do 3 (split; [done|]).
    apply last_printed_log.
  - exists w2. rewrite Hrows, Hpost, Hpr, Hpost1.
    do 4 (split; [done|]). by apply Hlast.
Qed.

Lemma files_logs es w : files (logs es w) = files w.
Proof.
  revert w. induction es as [|e es IH]; intros w; simpl; [done|].
  change (files (logs es (log e w)) = files w). by rewrite IH.
Qed.

Lemma network_error_unavailable username password period data :
  encode (xml_request_body username password period) = Bytes data →
  network_error (service API_URL data) →
  outcome_of username password period = Unavailable.
Proof.
  unfold network_error, fetch_outcome. intros ->.
  destruct (service _ _) as [msg|r]; [done|]. by intros ->.
Qed.

(** What a fetch returns or raises does not depend on the world. *)
Lemma fetch_result username password period w :
  (fetch username password period w).1
  = returned (outcome_of username password period).
Proof.
  destruct (fetch_run encode service parse_xml username password period w)
    as (es & Hrun & _). by rewrite Hrun.
Qed.

Lemma fetch_none_unavailable username password period w :
  (fetch username password period w).1 = Ok None →
  outcome_of username password period = Unavailable.
Proof.
  rewrite fetch_result.
  by destruct (outcome_of username password period).
Qed.

Lemma fetch_raised_crashed username password period w e :
  (fetch username password period w).1 = Raised e →
  outcome_of username password period = Crashed e.
Proof.
  rewrite fetch_result.
  destruct (outcome_of username password period); simpl; congruence.
Qed.

Lemma run_periods_all_unavailable username password periods :
  (∀ period, period ∈ periods →
             outcome_of username password period = Unavailable) →
  run username password periods = (periods, [], None).
Proof.
  induction periods as [|p l IH]; intros Hall; simpl; [done|].
  unfold period_rows. rewrite (Hall p) by constructor.
  rewrite IH; [done|]. intros q Hq. apply Hall. by constructor.
Qed.

(** C4. When the request of a period is sent and succeeds, and the text of
    the result element contains ERROR anywhere, whatever stands before and
    after it, [fetch_gradebook_data] returns [None] for the period, and
    the turn of the loop for that period returns normally and leaves every
    file as it was: the period adds no rows. *)
Theorem error_marker_means_no_data
    writer username password period data r t before after w :
  encode (xml_request_body username password period) = Bytes data →
  service API_URL data = Answered r →
  http_error (status_code r) = false →
  find (parse_xml (content r)) "ProcessWebServiceRequestResult" = Some t →
  text t = before +:+ "ERROR" +:+ after →
  (∃ w1, fetch username password period w = (Ok None, w1) ∧
         files w1 = files w) ∧
  (∃ w2, step writer username password period w = (Ok tt, w2) ∧
         files w2 = files w).
Proof.
  intros Henc Hsvc Hst Hfind Htext.
  assert (outcome_of username password period = Unavailable) as Ho.
  { unfold fetch_outcome. rewrite Henc, Hsvc, Hst, Hfind.
    assert (str_in "ERROR" (text t) = true) as ->; [|done].
    apply str_in_spec. eauto. }
  destruct (fetch_run encode service parse_xml username password period w)
    as (es & Hrun & _).
  rewrite Ho in Hrun. simpl in Hrun. split.
  - exists (logs es w). split; [done|]. apply files_logs.
  - unfold period_step, mbind at 1, IO_bind at 1. rewrite Hrun.
    eexists. split; [reflexivity|]. simpl. apply files_logs.
Qed.

(** The fetches that fail by returning [None] are those whose request is
    sent and gets no connection, or an HTTP error status, or an answer
    whose result element holds the error marker. *)
Lemma fetch_returns_none_iff username password period w :
  (fetch username password period w).1 = Ok None
  ↔ ∃ data,
      encode (xml_request_body username password period) = Bytes data ∧
      (network_error (service API_URL data) ∨
       ∃ r t,
         service API_URL data = Answered r ∧
         http_error (status_code r) = false ∧
         find (parse_xml (content r)) "ProcessWebServiceRequestResult"
         = Some t ∧
         str_in "ERROR" (text t) = true).
Proof.
  rewrite fetch_result. unfold fetch_outcome, network_error.
  destruct (encode (xml_request_body username password period))
    as [data|msg]; [|split; [done|by intros (data & ? & _)]].
  destruct (service API_URL data) as [msg|r] eqn:Hsvc.
  { split; [|done]. intros _. exists data. rewrite Hsvc. by eauto. }
  destruct (http_error (status_code r)) eqn:Hst.
  { split; [|done]. intros _. exists data. rewrite Hsvc. by eauto. }
  destruct (find (parse_xml (content r)) "ProcessWebServiceRequestResult")
    as [t|] eqn:Hfind.
  - destruct (str_in "ERROR" (text t)) eqn:Hin.
    + split; [|done]. intros _. exists data. split; [done|].
      right. by exists r, t.
    + split; [done|].
      intros (data' & [= <-] & [Hnet|(r' & t' & Hsvc' & _ & Hfind' & Hin')]).
      * rewrite Hsvc in Hnet. congruence.
      * congruence.
  - split; [done|].
    intros (data' & [= <-] & [Hnet|(r' & t' & Hsvc' & _ & Hfind' & _)]).
    + rewrite Hsvc in Hnet. congruence.
    + congruence.
Qed.

(** A fetch that does not raise has sent its request. *)
Lemma unavailable_sent username password period :
  outcome_of username password period = Unavailable →
  ∃ data, encode (xml_request_body username password period) = Bytes data.
Proof.
  unfold fetch_outcome.
  destruct (encode _) as [data|msg]; [by exists data|done].
Qed.

Lemma requests_sent username password (periods : list nat) :
  (∀ period, period ∈ periods →
     ∃ data, encode (xml_request_body username password period)
             = Bytes data) →
  Bytes <$> omap (request encode username password) periods
  = (λ period, encode (xml_request_body username password period))
      <$> periods.
Proof.
  induction periods as [|p l IH]; intros Hall; [done|].
  destruct (Hall p) as [data Hdata]; [constructor|].
  rewrite !fmap_cons, Hdata. cbn [omap list_omap].
  unfold request at 1. rewrite Hdata, fmap_cons. f_equal.
  apply IH. intros q Hq. apply Hall. by constructor.
Qed.

Lemma run_periods_crash username password before period after e :
  (∀ q, q ∈ before → outcome_of username password q = Unavailable) →
  outcome_of username password period = Crashed e →
  run username password (before ++ period :: after)
  = (before ++ [period], [], Some e).
Proof.
  intros Hok Hcrash. induction before as [|p l IH]; simpl.
  - by rewrite Hcrash.
  - rewrite IH by (intros q Hq; apply Hok; by constructor).
    unfold period_rows. by rewrite (Hok p) by constructor.
Qed.

Lemma msg_unexpected_not_complete e : msg_unexpected e ≠ msg_complete.
Proof. unfold msg_unexpected, msg_complete. simpl. by intros [=]. Qed.

(** C6. In a run that has its credentials and can open and write its
    output file, the file is truncated on opening: at the end it holds the
    fourteen-column header followed by the rows of the periods fetched,
    and nothing of what it held before.  If the fetch of each of the four
    periods returns [None] (no connection, an HTTP error status, or the
    error marker), the file holds the header alone, all four requests have
    been made, [main] returns normally, and its last message is that of
    completion.  But if the fetch of period [k] fails by raising (an
    answer without a result element, or a body that cannot be encoded),
    those before it having returned [None], the file holds the header
    alone as well, the periods after [k] are never asked for, and the last
    message is not that of completion: it is that of an unexpected
    error.  The fetches that return [None] are those whose request is
    sent and fails, or is answered with the error marker. *)
Theorem header_only_when_all_periods_fail w username password w1 :
  get_credentials (log (EvPrint banner) w) = (Ok (username, password), w1) →
  fs_readonly w = false →
  disk_quota w = None →
  ∃ w',
    main encode service parse_xml w = (Ok tt, w') ∧
    file_rows OUTPUT_FILENAME w'
    = [ "Quarter"; "Course Title"; "Room"; "Teacher"; "Period";
        "Overall Score"; "Mark"; "Assignment"; "Type"; "Date Assigned";
        "Date Due"; "Score"; "Points"; "Notes" ]
        :: (csv_record
              <$> (run username password (range REPORTING_PERIODS)).1.2) ∧
    ((∀ period w0, period < REPORTING_PERIODS →
        (fetch username password period w0).1 = Ok None) →
     file_rows OUTPUT_FILENAME w' = [csv_header] ∧
     (∃ sent,
        posted w' = posted w ++ sent ∧
        Bytes <$> sent
        = (λ period, encode (xml_request_body username password period))
            <$> [0; 1; 2; 3]) ∧
     last (printed w') = Some msg_complete) ∧
    (∀ k e,
       k < REPORTING_PERIODS →
       (∀ period w0, period < k →
          (fetch username password period w0).1 = Ok None) →
       (∀ w0, (fetch username password k w0).1 = Raised e) →
       file_rows OUTPUT_FILENAME w' = [csv_header] ∧
       posted w'
       = posted w ++ omap (request encode username password) (seq 0 (S k)) ∧
       last (printed w') = Some (msg_unexpected e) ∧
       msg_unexpected e ≠ msg_complete) ∧
    (∀ period w0,
       (fetch username password period w0).1 = Ok None
       ↔ ∃ data,
           encode (xml_request_body username password period)
           = Bytes data ∧
           (network_error (service API_URL data) ∨
            ∃ r t,
              service API_URL data = Answered r ∧
              http_error (status_code r) = false ∧
              find (parse_xml (content r)) "ProcessWebServiceRequestResult"
              = Some t ∧
              str_in "ERROR" (text t) = true)).
Proof.
  intros Hcred Hro Hq.
  destruct (main_run w username password w1 Hcred Hro Hq)
    as (w' & Hmain & Hrows & Hpost & _ & Hlast).
  exists w'. do 2 (split; [done|]).
  split; [|split; [|intros period w0; apply fetch_returns_none_iff]].
  - intros Hfail.
    assert (∀ period, period ∈ range REPORTING_PERIODS →
                      outcome_of username password period = Unavailable)
      as Hnone.
    { intros period Hp. apply (fetch_none_unavailable _ _ _ w), Hfail.
      unfold range, REPORTING_PERIODS in *.
      apply list_elem_of_In, in_seq in Hp. lia. }
    rewrite (run_periods_all_unavailable _ _ _ Hnone) in Hrows, Hpost, Hlast.
    cbn [fst snd] in Hrows, Hpost, Hlast.
    split; [done|]. split; [|done].
    eexists. split; [exact Hpost|].
    apply (requests_sent _ _ (range REPORTING_PERIODS)).
    intros period Hp. by apply unavailable_sent, Hnone.
  - intros k e Hk Hnone Hraise.
    assert (run username password (range REPORTING_PERIODS)
            = (seq 0 (S k), [], Some e)) as Hrun.
    { unfold range, REPORTING_PERIODS in *.
      replace 4 with (k + S (3 - k)) by lia.
      rewrite seq_app. simpl seq at 2.
      rewrite (run_periods_crash _ _ _ _ _ e).
      - by rewrite seq_S.
      - intros q Hq'. apply (fetch_none_unavailable _ _ _ w), Hnone.
        apply list_elem_of_In, in_seq in Hq'. lia.
      - apply (fetch_raised_crashed _ _ _ w), Hraise. }
    rewrite Hrun in Hrows, Hpost, Hlast.
    cbn [fst snd] in Hrows, Hpost, Hlast.
    do 3 (split; [done|]). apply msg_unexpected_not_complete.
Qed.

(** C10. In every row the first field, under the header Quarter, and the
    seventh, under the header Mark, are both the name of the Mark of the
    row.  Every field of a row is an attribute of an element of the
    document, or the placeholder; the rows written for a period are those
    of the document fetched, so that the index of the period is written
    nowhere. *)
Theorem quarter_column_repeats_mark_name writer soup :
  csv_header !! 0 = Some "Quarter" ∧ csv_header !! 6 = Some "Mark" ∧
  (∀ row, row ∈ soup_rows soup →
     (∃ mark, mark ∈ descendants soup ∧ tag_name mark = Some "Mark" ∧
              row !! 0 = Some (get mark "MarkName") ∧
              row !! 6 = Some (get mark "MarkName")) ∧
     (∀ field, field ∈ row →
        field = Some PLACEHOLDER ∨
        ∃ element key, element ∈ descendants soup ∧
                       field = get element key)) ∧
  (∀ username password period w w1,
     fetch_gradebook_data encode service parse_xml username password period w
     = (Ok (Some soup), w1) →
     disk_quota w = None →
     ∃ w', step writer username password period w = (Ok tt, w') ∧
           file_rows writer w'
           = file_rows writer w ++ (csv_record <$> soup_rows soup)).
Proof.
  do 2 (split; [done|]). split.
  - intros row Hrow.
    apply soup_rows_inv in Hrow as (course & mark & Hc & Hm & Hrow).
    assert (course ∈ descendants soup) as Hcd by by eapply find_all_descendant.
    assert (mark ∈ descendants soup) as Hmd
      by (eapply descendants_trans; [done|by eapply find_all_descendant]).
    split.
    + exists mark. do 2 (split; [by eauto using find_all_named|]).
      by destruct Hrow as [[_ ->]|(a & _ & ->)].
    + intros field Hfield.
      destruct Hrow as [[_ ->]|(a & Ha & ->)].
      * unfold placeholder_row, shared_fields in Hfield. simpl in Hfield.
        repeat (apply elem_of_cons in Hfield as [->|Hfield]; [by eauto|]).
        by apply elem_of_nil in Hfield.
      * assert (a ∈ descendants soup) as Had
          by (eapply descendants_trans; [done|by eapply find_all_descendant]).
        unfold assignment_row, shared_fields, assignment_fields in Hfield.
        simpl in Hfield.
        repeat (apply elem_of_cons in Hfield as [->|Hfield]; [by eauto|]).
        by apply elem_of_nil in Hfield.
  - intros username password period w w1 Hfetch Hq.
    destruct (fetch_run encode service parse_xml username password period w)
      as (es & Hrun & _ & _).
    rewrite Hfetch in Hrun. injection Hrun as Hret ->.
    unfold period_step, mbind at 1, IO_bind at 1. rewrite Hfetch.
    unfold mbind, IO_bind.
    rewrite write_data_to_csv_run by by rewrite quota_logs.
    eexists. split; [reflexivity|].
    by rewrite file_rows_log, file_rows_append_rows, file_rows_logs.
Qed.

(** ** What the [try] block of [main] can raise *)

Lemma raises_only_bind {A B : Type} (m : IO A) (k : A → IO B) classes :
  raises_only m classes → (∀ a, raises_only (k a) classes) →
  raises_only (m ≫= k) classes.
Proof.
  intros Hm Hk w e w'. unfold mbind, IO_bind.
  destruct (m w) as [[a|e'] w1] eqn:Hrun.
  - apply Hk.
  - intros [= <- <-]. by eapply Hm.
Qed.

Lemma raises_only_for_each {A : Type} (l : list A) (body : A → IO unit)
    classes :
  (∀ x, raises_only (body x) classes) → raises_only (for_each l body) classes.
Proof.
  intros Hbody. induction l as [|x l IH]; simpl.
  - by intros w e w'.
  - apply raises_only_bind; [done|]. by intros _.
Qed.

Lemma raises_only_print s classes : raises_only (print s) classes.
Proof. by intros w e w'. Qed.

Lemma raises_only_mret {A : Type} (a : A) classes :
  raises_only (mret a) classes.
Proof. by intros w e w'. Qed.

Lemma raises_only_sleep ms classes : raises_only (sleep ms) classes.
Proof. by intros w e w'. Qed.

Lemma raises_only_writerow path row : raises_only (writerow path row) export_errors.
Proof.
  intros w e w'. unfold writerow.
  destruct (disk_quota w) as [[|n]|]; intros [= <- <-]. by left.
Qed.

Lemma raises_only_open_w path : raises_only (open_w path) export_errors.
Proof.
  intros w e w'. unfold open_w.
  destruct (fs_readonly w); intros [= <- <-]. by left.
Qed.

Lemma raises_only_write_data_to_csv writer soup :
  raises_only (write_data_to_csv writer soup) export_errors.
Proof.
  unfold write_data_to_csv. cbv zeta.
  apply raises_only_for_each. intros course.
  apply raises_only_for_each. intros mark.
  destruct (find_all mark "Assignment") as [|a l].
  - apply raises_only_writerow.
  - apply raises_only_for_each. intros assignment. apply raises_only_writerow.
Qed.

Lemma raises_only_fetch username password period :
  raises_only (fetch username password period) export_errors.
Proof.
  intros w e w' Hrun.
  assert ((fetch username password period w).1 = Raised e) as Hraised
    by by rewrite Hrun.
  apply fetch_raised_crashed, crashed_inv in Hraised
    as [(msg & _ & ->)|(data & r & _ & _ & _ & _ & ->)]; simpl.
  - do 2 right. by left.
  - right. by left.
Qed.

Lemma raises_only_step writer username password period :
  raises_only (step writer username password period) export_errors.
Proof.
  unfold period_step.
  apply raises_only_bind; [apply raises_only_fetch|]. intros soup.
  apply raises_only_bind; [|intros _; apply raises_only_sleep].
  destruct soup;
    [apply raises_only_write_data_to_csv|apply raises_only_mret].
Qed.

Lemma raises_only_export username password :
  raises_only (export encode service parse_xml username password)
    export_errors.
Proof.
  unfold export.
  apply raises_only_bind; [apply raises_only_open_w|]. intros f.
  apply raises_only_bind; [apply raises_only_writerow|]. intros _.
  apply raises_only_bind; [|intros _; apply raises_only_print].
  apply raises_only_for_each. intros period. apply raises_only_step.
Qed.

Lemma export_errors_caught c :
  c ∈ export_errors → issubclass c Exception = true.
Proof.
  unfold export_errors. intros Hc.
  repeat (apply elem_of_cons in Hc as [->|Hc]; [done|]).
  by apply elem_of_nil in Hc.
Qed.




Lemma run_periods_stopped username password before period after e :
  (∀ q e', q ∈ before → outcome_of username password q ≠ Crashed e') →
  outcome_of username password period = Crashed e →
  run username password (before ++ period :: after)
  = (before ++ [period], flat_map (rows_of username password) before, Some e).
Proof.
  intros Hok Hcrash. induction before as [|p l IH]; simpl.
  - by rewrite Hcrash.
  - rewrite IH by (intros q e' Hq; apply Hok; by constructor).
    destruct (outcome_of username password p) as [| |e'] eqn:Ho; [done..|].
    exfalso. eapply (Hok p e'); [constructor|done].
Qed.

(** An answer with a result element in it does not make the fetch
    raise. *)
Lemma outcome_with_result username password period data e :
  encode (xml_request_body username password period) = Bytes data →
  (∀ r, service API_URL data = Answered r →
        http_error (status_code r) = false →
        find (parse_xml (content r)) "ProcessWebServiceRequestResult"
        ≠ None) →
  outcome_of username password period ≠ Crashed e.
Proof.
  intros Henc Hres. unfold fetch_outcome. rewrite Henc.
  destruct (service API_URL data) as [msg|r] eqn:Hsvc; [done|].
  destruct (http_error (status_code r)) eqn:Hst; [done|].
  destruct (find (parse_xml (content r)) "ProcessWebServiceRequestResult")
    as [t|] eqn:Hfind.
  - by destruct (str_in "ERROR" (text t)).
  - by destruct (Hres r).
Qed.

(** [main] after its [try] block: what the block returns, or the line of
    the [except] clause that catches what it raises. *)
Lemma main_after_export w username password w1 :
  get_credentials (log (EvPrint banner) w) = (Ok (username, password), w1) →
  main encode service parse_xml w
  = match export encode service parse_xml username password w1 with
    | (Ok a, w2) => (Ok a, w2)
    | (Raised e, w2) =>
        (Ok tt, log (EvPrint (if isinstance e IOError then msg_file_error e
                              else msg_unexpected e)) w2)
    end.
Proof.
  intros Hcred. rewrite main_unfold, Hcred. unfold try_except.
  destruct (export encode service parse_xml username password w1)
    as [[a|e] w2] eqn:Hbody; [done|].
  apply raises_only_export, export_errors_caught in Hbody.
  unfold isinstance at 2. rewrite Hbody.
  by destruct (isinstance e IOError).
Qed.

(** [main] when the output file cannot be opened. *)
Lemma main_readonly w username password w1 :
  get_credentials (log (EvPrint banner) w) = (Ok (username, password), w1) →
  fs_readonly w = true →
  main encode service parse_xml w
  = (Ok tt, log (EvPrint (msg_file_error permission_denied)) w1).
Proof.
  intros Hcred Hro.
  destruct (get_credentials_frame _ _ _ Hcred) as (_ & Hro1 & _ & _).
  simpl in Hro1.
  rewrite (main_after_export _ _ _ _ Hcred).
  unfold export, mbind at 1, IO_bind at 1, open_w.
  by rewrite Hro1, Hro.
Qed.


(** When the answer to the request of a period has a success status but
    no result element in it,
    [fetch_gradebook_data] does not return [None]: it raises an
    [AttributeError], which its [except] clause does not catch. *)
Lemma fetch_raises_without_result_element
    username password period data r w :
  encode (xml_request_body username password period) = Bytes data →
  service API_URL data = Answered r →
  http_error (status_code r) = false →
  find (parse_xml (content r)) "ProcessWebServiceRequestResult" = None →
  ∃ w', fetch username password period w = (Raised no_text_attribute, w').
Proof.
  intros Henc Hsvc Hst Hfind.
  destruct (fetch_run encode service parse_xml username password period w)
    as (es & Hrun & _).
  unfold fetch_outcome in Hrun. rewrite Henc, Hsvc, Hst, Hfind in Hrun. eauto.
Qed.

(** A body that cannot be encoded makes the fetch raise as well, before
    anything is sent: the [UnicodeEncodeError] is no [RequestException]. *)
Lemma fetch_raises_when_not_encodable username password period msg w :
  encode (xml_request_body username password period) = Unencodable msg →
  ∃ w', fetch username password period w
        = (Raised (Exn UnicodeEncodeError msg), w') ∧
        posted w' = posted w.
Proof.
  intros Henc.
  destruct (fetch_run encode service parse_xml username password period w)
    as (es & Hrun & _ & Hpost & _).
  unfold fetch_outcome, request in *. rewrite Henc in Hrun, Hpost.
  exists (logs es w). split; [done|].
  rewrite posted_logs, Hpost. apply app_nil_r.
Qed.

(** A request that fails, for lack of a connection or by an HTTP error
    status, makes the fetch return [None] and leaves the files alone. *)
Lemma fetch_none_on_network_error username password period data w :
  encode (xml_request_body username password period) = Bytes data →
  network_error (service API_URL data) →
  ∃ w', fetch username password period w = (Ok None, w') ∧
        files w' = files w.
Proof.
  intros Henc Hnet. apply (network_error_unavailable _ _ _ _ Henc) in Hnet.
  destruct (fetch_run encode service parse_xml username password period w)
    as (es & Hrun & _).
  rewrite Hnet in Hrun. exists (logs es w). split; [done|]. apply files_logs.
Qed.

End Run.

(** * The statements at work on the sample run *)

Lemma mark_without_assignments_one_row_witness :
  writes_rows (write_data_to_csv "grades.csv" Sample.gradebook) "grades.csv"
    (rows_before [] Sample.algebra [Sample.q1]
       ++ [placeholder_row Sample.algebra Sample.q2]
       ++ rows_after Sample.algebra [] [])
  ∧ placeholder_row Sample.algebra Sample.q2 !! 7 = Some (Some PLACEHOLDER).
Proof.
  assert (find_all Sample.gradebook "Course" = [] ++ Sample.algebra :: [])
    as Hc by (vm_compute; reflexivity).
  assert (find_all Sample.algebra "Mark" = [Sample.q1] ++ Sample.q2 :: [])
    as Hm by (vm_compute; reflexivity).
  assert (find_all Sample.q2 "Assignment" = [])
    as Ha by (vm_compute; reflexivity).
  destruct (mark_without_assignments_one_row "grades.csv" Sample.gradebook
              [] Sample.algebra [] [Sample.q1] Sample.q2 [] Hc Hm Ha)
    as (Hrun & _ & Hfields).
  split; [exact Hrun|]. apply (Hfields 7 "Measure"). reflexivity.
Defined.

Lemma mark_with_assignments_rows_witness :
  writes_rows (write_data_to_csv "grades.csv" Sample.gradebook) "grades.csv"
    (rows_before [] Sample.algebra []
       ++ (assignment_row Sample.algebra Sample.q1
             <$> [Sample.hw1; Sample.quiz1])
       ++ rows_after Sample.algebra [Sample.q2] [])
  ∧ length (assignment_row Sample.algebra Sample.q1
              <$> [Sample.hw1; Sample.quiz1]) = 2.
Proof.
  assert (find_all Sample.gradebook "Course" = [] ++ Sample.algebra :: [])
    as Hc by (vm_compute; reflexivity).
  assert (find_all Sample.algebra "Mark" = [] ++ Sample.q1 :: [Sample.q2])
    as Hm by (vm_compute; reflexivity).
  assert (find_all Sample.q1 "Assignment" = [Sample.hw1; Sample.quiz1])
    as Ha by (vm_compute; reflexivity).
  assert ([Sample.hw1; Sample.quiz1] ≠ []) as Hne by discriminate.
  destruct (mark_with_assignments_rows "grades.csv" Sample.gradebook
              [] Sample.algebra [] [] Sample.q1 [Sample.q2]
              [Sample.hw1; Sample.quiz1] Hc Hm Ha Hne)
    as (Hrun & Hlen & _).
  split; [exact Hrun|exact Hlen].
Defined.

Lemma placeholder_is_NA_witness :
  ∃ w' r,
    write_data_to_csv "grades.csv" Sample.gradebook Sample.configured
    = (Ok tt, w') ∧
    length r = 14 ∧ r !! 7 = Some "N/A" ∧ r !! 13 = Some "N/A".
Proof.
  assert (find_all Sample.gradebook "Course" = [] ++ Sample.algebra :: [])
    as Hc by (vm_compute; reflexivity).
  assert (find_all Sample.algebra "Mark" = [Sample.q1] ++ Sample.q2 :: [])
    as Hm by (vm_compute; reflexivity).
  assert (find_all Sample.q2 "Assignment" = [])
    as Ha by (vm_compute; reflexivity).
  assert (disk_quota Sample.configured = None) as Hq by reflexivity.
  destruct (placeholder_is_NA "grades.csv" Sample.gradebook
              [] Sample.algebra [] [Sample.q1] Sample.q2 []
              Sample.configured Hc Hm Ha Hq)
    as (w' & r & Hrun & _ & Hlen & Hna).
  exists w', r. split; [exact Hrun|]. split; [exact Hlen|]. split.
  - apply (Hna 7 "Assignment"); [reflexivity|]. vm_compute. by left.
  - apply (Hna 13 "Notes"); [reflexivity|]. vm_compute.
    do 6 right. by left.
Defined.

Lemma flattening_tolerates_missing_attributes_witness :
  writes_rows (write_data_to_csv "grades.csv" Sample.gradebook) "grades.csv"
    (soup_rows Sample.gradebook)
  ∧ length (placeholder_row Sample.algebra Sample.q2) = 14.
Proof.
  destruct (flattening_tolerates_missing_attributes "grades.csv"
              Sample.gradebook) as (Hrun & _ & _ & Hrows).
  split; [exact Hrun|].
  apply Hrows. vm_compute. do 2 right. by left.
Defined.

Lemma credentials_from_configuration_witness :
  (∃ w', get_credentials Sample.configured = (Ok ("alice", "secret"), w') ∧
         prompts w' = [] ∧ stdin w' = [])
  ∧ (∃ w', get_credentials Sample.interactive
           = (Ok ("alice", "secret"), w') ∧
           stdin w' = ["more"] ∧
           prompts w' = [EvInput "Enter StudentVUE Username: ";
                         EvGetpass "Enter StudentVUE Password: "]).
Proof.
  split.
  - destruct (credentials_from_configuration Sample.configured) as [Hfound _].
    destruct (Hfound "alice" "secret") as (w' & Hrun & Hpr & Hin & _);
      [vm_compute; reflexivity | vm_compute; reflexivity
      | discriminate | discriminate |].
    exists w'. split; [exact Hrun|]. split; [exact Hpr|exact Hin].
  - destruct (credentials_from_configuration Sample.interactive)
      as [_ Hprompt].
    destruct Hprompt as (w' & Hrun & Hin & Htrace).
    { right; left. vm_compute. reflexivity. }
    exists w'. split; [exact Hrun|]. split; [exact Hin|].
    unfold prompts. rewrite Htrace. reflexivity.
Defined.

Lemma error_marker_means_no_data_witness :
  (∃ w1, fetch_gradebook_data Sample.utf8
           (Sample.scripted Sample.third_period_unavailable)
           Sample.parse "alice" "secret" 2 Sample.configured
         = (Ok None, w1) ∧ files w1 = files Sample.configured)
  ∧ (∃ w2, period_step Sample.utf8
             (Sample.scripted Sample.third_period_unavailable)
             Sample.parse "grades.csv" "alice" "secret" 2 Sample.configured
           = (Ok tt, w2) ∧ files w2 = files Sample.configured).
Proof.
  apply (error_marker_means_no_data
           Sample.utf8 (Sample.scripted Sample.third_period_unavailable)
           Sample.parse "grades.csv" "alice" "secret" 2
           (xml_request_body "alice" "secret" 2)
           (Response 200 "OK" "<result><RT_ERROR/></result>")
           (Tag "ProcessWebServiceRequestResult" ∅
              [NavigableString
                 "<RT_ERROR ERROR_MESSAGE='Invalid user id or password'/>"])
           "<RT_" " ERROR_MESSAGE='Invalid user id or password'/>"
           Sample.configured);
    vm_compute; reflexivity.
Defined.

Lemma header_only_when_all_periods_fail_witness :
  (∃ w',
     main Sample.utf8 (Sample.scripted Sample.all_down) Sample.parse
       Sample.configured = (Ok tt, w') ∧
     file_rows OUTPUT_FILENAME w' = [csv_header] ∧
     length (posted w') = 4 ∧
     last (printed w') = Some msg_complete)
  ∧ (∃ w',
       main Sample.utf8 (Sample.scripted Sample.all_unavailable) Sample.parse
         Sample.configured = (Ok tt, w') ∧
       file_rows OUTPUT_FILENAME w' = [csv_header] ∧
       last (printed w') = Some msg_complete)
  ∧ (∃ w',
       main Sample.utf8 (Sample.scripted Sample.third_period_broken)
         Sample.parse Sample.configured = (Ok tt, w') ∧
       file_rows OUTPUT_FILENAME w' = [csv_header] ∧
       length (posted w') = 3 ∧
       last (printed w') = Some (msg_unexpected no_text_attribute) ∧
       last (printed w') ≠ Some msg_complete).
Proof.
  split; [|split].
  - destruct (header_only_when_all_periods_fail
                Sample.utf8 (Sample.scripted Sample.all_down) Sample.parse
                Sample.configured "alice" "secret"
                (get_credentials (log (EvPrint banner) Sample.configured)).2)
      as (w' & Hmain & _ & Hfail & _);
      [vm_compute; reflexivity | reflexivity | reflexivity |].
    destruct Hfail as (Hrows & (sent & Hpost & Hsent) & Hlast).
    { intros period w0 Hp. unfold REPORTING_PERIODS in Hp.
      destruct period as [|[|[|[|period]]]]; [vm_compute; reflexivity..|lia]. }
    exists w'. split; [exact Hmain|]. split; [exact Hrows|].
    split; [|exact Hlast].
    rewrite Hpost, length_app.
    rewrite <- (length_fmap Bytes sent), Hsent. reflexivity.
  - destruct (header_only_when_all_periods_fail
                Sample.utf8 (Sample.scripted Sample.all_unavailable)
                Sample.parse Sample.configured "alice" "secret"
                (get_credentials (log (EvPrint banner) Sample.configured)).2)
      as (w' & Hmain & _ & Hfail & _);
      [vm_compute; reflexivity | reflexivity | reflexivity |].
    destruct Hfail as (Hrows & _ & Hlast).
    { intros period w0 Hp. unfold REPORTING_PERIODS in Hp.
      destruct period as [|[|[|[|period]]]]; [vm_compute; reflexivity..|lia]. }
    exists w'. split; [exact Hmain|]. split; [exact Hrows|exact Hlast].
  - destruct (header_only_when_all_periods_fail
                Sample.utf8 (Sample.scripted Sample.third_period_broken)
                Sample.parse Sample.configured "alice" "secret"
                (get_credentials (log (EvPrint banner) Sample.configured)).2)
      as (w' & Hmain & _ & _ & Hcrash & _);
      [vm_compute; reflexivity | reflexivity | reflexivity |].
    destruct (Hcrash 2 no_text_attribute) as (Hrows & Hpost & Hlast & _).
    { unfold REPORTING_PERIODS. lia. }
    { intros period w0 Hp.
      destruct period as [|[|period]]; [vm_compute; reflexivity..|lia]. }
    { intros w0. vm_compute. reflexivity. }
    exists w'. split; [exact Hmain|]. split; [exact Hrows|].
    split; [rewrite Hpost; vm_compute; reflexivity|].
    split; [exact Hlast|].
    rewrite Hlast. discriminate.
Defined.


Lemma quarter_column_repeats_mark_name_witness :
  assignment_row Sample.algebra Sample.q1 Sample.hw1 !! 0 = Some (Some "Q1")
  ∧ ∃ mark,
      assignment_row Sample.algebra Sample.q1 Sample.hw1 !! 0
      = Some (get mark "MarkName") ∧
      assignment_row Sample.algebra Sample.q1 Sample.hw1 !! 6
      = Some (get mark "MarkName").
Proof.
  split; [reflexivity|].
  destruct (quarter_column_repeats_mark_name
              Sample.utf8 (Sample.scripted Sample.all_down) Sample.parse
              "grades.csv" Sample.gradebook) as (_ & _ & Hrows & _).
  destruct (Hrows (assignment_row Sample.algebra Sample.q1 Sample.hw1))
    as [(mark & _ & _ & H0 & H6) _].
  { vm_compute. by left. }
  exists mark. split; [exact H0|exact H6].
Defined.


(** C1 on a run whose second period is answered, with status 200, by a
    page without a result element: the fetch raises instead of returning
    [None]; [main] catches the exception as an unexpected error and stops,
    so that the third and the fourth period are never requested, though
    the rows of the first period are in the file. *)
Theorem missing_result_element_aborts_the_run :
  (fetch_gradebook_data Sample.utf8
     (Sample.scripted Sample.second_period_broken)
     Sample.parse "alice" "secret" 1 Sample.configured).1
  = Raised no_text_attribute
  ∧ let end_of_run :=
      main Sample.utf8 (Sample.scripted Sample.second_period_broken)
        Sample.parse Sample.configured in
    end_of_run.1 = Ok tt ∧
    posted end_of_run.2
    = [xml_request_body "alice" "secret" 0;
       xml_request_body "alice" "secret" 1] ∧
    file_rows OUTPUT_FILENAME end_of_run.2
    = csv_header :: (csv_record <$> soup_rows Sample.gradebook) ∧
    last (printed end_of_run.2) = Some (msg_unexpected no_text_attribute).
Proof.
  split; [vm_compute; reflexivity|].
  cbv zeta. repeat split; vm_compute; reflexivity.
Qed.

(** * Further properties of the script *)

(** ** Loops in the monad *)

Lemma bind_unit_r (m : IO unit) w : (m ;; mret tt) w = m w.
Proof.
  unfold mbind, IO_bind. by destruct (m w) as [[[]|e] w'].
Qed.

Lemma for_each_ext {A : Type} (l : list A) (body body' : A → IO unit) w :
  (∀ x w', body x w' = body' x w') →
  for_each l body w = for_each l body' w.
Proof.
  intros Hext. revert w. induction l as [|x l IH]; intros w; simpl; [done|].
  unfold mbind, IO_bind. rewrite Hext.
  destruct (body' x w) as [[[]|e] w']; [apply IH|done].
Qed.

Lemma for_each_app {A : Type} (l1 l2 : list A) (body : A → IO unit) w :
  for_each (l1 ++ l2) body w = (for_each l1 body ;; for_each l2 body) w.
Proof.
  revert w. induction l1 as [|x l1 IH]; intros w; simpl; [done|].
  unfold mbind, IO_bind in *.
  destruct (body x w) as [[[]|e] w']; [apply IH|done].
Qed.

(** A loop over a concatenation is the nest of two loops. *)
Lemma for_each_flat_map {A B : Type} (f : A → list B) (l : list A)
    (body : B → IO unit) w :
  for_each (flat_map f l) body w = for_each l (λ x, for_each (f x) body) w.
Proof.
  revert w. induction l as [|x l IH]; intros w; simpl; [done|].
  rewrite for_each_app. unfold mbind, IO_bind.
  destruct (for_each (f x) body w) as [[[]|e] w']; [apply IH|done].
Qed.

Lemma for_each_fmap {A B : Type} (f : A → B) (l : list A)
    (body : B → IO unit) w :
  for_each (f <$> l) body w = for_each l (λ x, body (f x)) w.
Proof.
  revert w. induction l as [|x l IH]; intros w; simpl; [done|].
  unfold mbind, IO_bind.
  destruct (body (f x) w) as [[[]|e] w']; [apply IH|done].
Qed.

(** ** The flattener in any world *)

Lemma write_data_to_csv_loop writer soup w :
  write_data_to_csv writer soup w
  = for_each (soup_rows soup) (writerow writer) w.
Proof.
  unfold write_data_to_csv, soup_rows. cbv zeta.
  rewrite for_each_flat_map. apply for_each_ext. intros course w1.
  unfold course_rows. rewrite for_each_flat_map.
  apply for_each_ext. intros mark w2. unfold mark_rows.
  destruct (find_all mark "Assignment") as [|a l].
  - simpl. by rewrite bind_unit_r.
  - by rewrite for_each_fmap.
Qed.

(** X1. In every world, also one whose disk fills up on the way,
    [write_data_to_csv] does exactly what a single loop does that hands
    the rows of the document to the writer one after another: the three
    nested loops add no effect and lose none. *)
Theorem write_data_to_csv_row_by_row writer soup w :
  write_data_to_csv writer soup w
  = for_each (soup_rows soup) (writerow writer) w.
Proof. apply write_data_to_csv_loop. Qed.

(** Whatever the disk, the writer leaves the trace alone. *)
Lemma writerow_trace path row w : trace (writerow path row w).2 = trace w.
Proof. unfold writerow. by destruct (disk_quota w) as [[|n]|]. Qed.

Lemma for_each_writerow_trace path rows w :
  trace (for_each rows (writerow path) w).2 = trace w.
Proof.
  revert w. induction rows as [|row rows IH]; intros w; [done|].
  simpl for_each. unfold mbind, IO_bind, writerow at 1.
  destruct (disk_quota w) as [[|n]|]; [done| |]; by rewrite IH.
Qed.

(** ** The traffic of a fetch *)

Lemma timeline_log e w :
  timeline (log e w)
  = timeline w ++ match wire e with Some x => [x] | None => [] end.
Proof.
  unfold timeline. simpl. rewrite omap_app. simpl.
  by destruct (wire e).
Qed.

Lemma timeline_logs es w : timeline (logs es w) = timeline w ++ omap wire es.
Proof. unfold timeline. by rewrite trace_logs, omap_app. Qed.

Lemma environ_logs es w : environ (logs es w) = environ w.
Proof.
  revert w. induction es as [|e es IH]; intros w; simpl; [done|].
  change (environ (logs es (log e w)) = environ w). by rewrite IH.
Qed.

Section Traffic.

Context (encode : string → encoding) (service : string → string → reply)
  (parse_xml : string → node).

Local Abbreviation fetch := (fetch_gradebook_data encode service parse_xml).
Local Abbreviation outcome_of := (fetch_outcome encode service parse_xml).
Local Abbreviation step := (period_step encode service parse_xml).

(** X3. Whatever the service answers, and whether it returns or raises,
    [fetch_gradebook_data] sends at most one request: exactly one when
    the body made of the credentials and the period can be encoded, to the
    fixed address and with the bytes of that body, and none when it
    cannot.  It does not pause, prompts for nothing, and leaves the files,
    the disk, the terminal input and the environment as they were. *)
Theorem fetch_sends_at_most_one_request username password period w :
  let w' := (fetch username password period w).2 in
  timeline w'
  = timeline w
      ++ match encode (xml_request_body username password period) with
         | Bytes data => [inl (API_URL, data)]
         | Unencodable _ => []
         end
  ∧ prompts w' = prompts w ∧ files w' = files w ∧ stdin w' = stdin w
  ∧ environ w' = environ w ∧ disk_quota w' = disk_quota w.
Proof.
  destruct (fetch_run encode service parse_xml username password period w)
    as (es & Hrun & Hwire & _ & Hpr).
  cbv zeta. rewrite Hrun. simpl.
  rewrite timeline_logs, prompts_logs, files_logs, stdin_logs, environ_logs,
    quota_logs, Hwire, Hpr, app_nil_r.
  unfold request.
  by destruct (encode (xml_request_body username password period)).
Qed.

(** X4. When the request is sent and answered with a status that is no
    error, and the answer has a result element, the fetch returns the
    document parsed from the text of that element exactly when this text
    does not contain the marker, and the "no data" value exactly when it
    does. *)
Theorem fetch_returns_document_unless_marked
    username password period data r t w :
  encode (xml_request_body username password period) = Bytes data →
  service API_URL data = Answered r →
  http_error (status_code r) = false →
  find (parse_xml (content r)) "ProcessWebServiceRequestResult" = Some t →
  ((fetch username password period w).1 = Ok (Some (parse_xml (text t)))
   ↔ ¬ ∃ before after, text t = before +:+ "ERROR" +:+ after)
  ∧ ((fetch username password period w).1 = Ok None
     ↔ ∃ before after, text t = before +:+ "ERROR" +:+ after).
Proof.
  intros Henc Hsvc Hst Hfind.
  destruct (fetch_run encode service parse_xml username password period w)
    as (es & Hrun & _).
  rewrite Hrun. simpl. unfold fetch_outcome. rewrite Henc, Hsvc, Hst, Hfind.
  rewrite <- str_in_spec.
  destruct (str_in "ERROR" (text t)); simpl; split; split; done.
Qed.


End Traffic.

(** ** The traffic of a run *)

Lemma write_data_to_csv_trace writer soup w :
  trace (write_data_to_csv writer soup w).2 = trace w.
Proof. rewrite write_data_to_csv_loop. apply for_each_writerow_trace. Qed.

Lemma get_credentials_timeline w :
  timeline (get_credentials w).2 = timeline w.
Proof.
  rewrite get_credentials_eq. cbv zeta.
  set (w1 := set_environ (environ w ∪ dotenv w) w).
  assert (timeline
            ((print "No .env file detected. Please provide your credentials." ;;
              username ← input "Enter StudentVUE Username: ";
              password ← getpass "Enter StudentVUE Password: ";
              mret (username, password)) w1).2 = timeline w) as Hprompt.
  { unfold mbind, IO_bind, print, input, getpass, mret, IO_ret. simpl.
    destruct (stdin w) as [|ul [|pl rest]]; simpl;
      unfold timeline; simpl; rewrite ?omap_app; simpl;
      by rewrite ?app_nil_r. }
  destruct (environ w1 !! "STUDENTVUE_USERNAME") as [u|]; [|done].
  destruct (environ w1 !! "STUDENTVUE_PASSWORD") as [p|]; [|done].
  destruct (truthy (Some u) && truthy (Some p)); [|done].
  simpl. rewrite timeline_log. simpl. by rewrite app_nil_r.
Qed.

Section Pace.

Context (encode : string → encoding) (service : string → string → reply)
  (parse_xml : string → node).

Local Abbreviation outcome_of := (fetch_outcome encode service parse_xml).
Local Abbreviation rows_of := (period_rows encode service parse_xml).
Local Abbreviation step := (period_step encode service parse_xml).
Local Abbreviation run := (run_periods encode service parse_xml).

(** One turn of the loop in any world: at most one request, and a pause
    at the end unless the turn raises.  A turn that returns has sent its
    request. *)
Lemma step_traffic writer username password period w r w' :
  step writer username password period w = (r, w') →
  posted w'
  = posted w ++ option_list (request encode username password period) ∧
  prompts w' = prompts w ∧
  (r = Ok tt →
   is_Some (request encode username password period) ∧
   timeline w' = timeline w ++ turn_traffic encode username password period).
Proof.
  unfold period_step, turn_traffic.
  destruct (fetch_run encode service parse_xml username password period w)
    as (es & Hrun & Hwire & Hpost & Hpr).
  unfold mbind at 1, IO_bind at 1. rewrite Hrun.
  assert (posted (logs es w)
          = posted w ++ option_list (request encode username password period))
    as Hp by by rewrite posted_logs, Hpost.
  assert (prompts (logs es w) = prompts w) as Hq
    by by rewrite prompts_logs, Hpr, app_nil_r.
  assert (timeline (logs es w)
          = timeline w
              ++ option_list
                   (inl ∘ pair API_URL
                      <$> request encode username password period))
    as Ht by by rewrite timeline_logs, Hwire.
  assert ((∀ e, outcome_of username password period ≠ Crashed e) →
          is_Some (request encode username password period)) as Hsent.
  { unfold fetch_outcome, request.
    destruct (encode (xml_request_body username password period))
      as [data|msg]; [by eauto|].
    intros He. by destruct (He (Exn UnicodeEncodeError msg)). }
  destruct (outcome_of username password period) as [|soup|e]; simpl.
  - intros [= <- <-].
    rewrite posted_log, prompts_log, timeline_log, Hp, Hq, Ht. simpl.
    rewrite !app_nil_r, <- app_assoc. do 2 (split; [done|]).
    intros _. split; [by apply Hsent|done].
  - unfold mbind, IO_bind.
    pose proof (write_data_to_csv_trace writer soup (logs es w)) as Htr.
    destruct (write_data_to_csv writer soup (logs es w)) as [[[]|e] w1];
      simpl in Htr; intros [= <- <-].
    + rewrite posted_log, prompts_log, timeline_log. simpl.
      unfold posted, prompts, timeline in *. rewrite Htr, Hp, Hq, Ht.
      rewrite !app_nil_r, <- app_assoc. do 2 (split; [done|]).
      intros _. split; [by apply Hsent|done].
    + unfold posted, prompts, timeline in *. by rewrite Htr, Hp, Hq.
  - by intros [= <- <-].
Qed.

(** The loop in any world: the requests of the first periods, in order,
    each the bytes of the body of its period. *)
Lemma loop_traffic writer username password periods w r w' :
  for_each periods (step writer username password) w = (r, w') →
  prompts w' = prompts w ∧
  (∃ k sent,
     (k ≤ length periods)%nat ∧
     posted w' = posted w ++ sent ∧
     Bytes <$> sent
     = (λ period, encode (xml_request_body username password period))
         <$> take k periods) ∧
  (r = Ok tt →
   timeline w'
   = timeline w ++ flat_map (turn_traffic encode username password) periods).
Proof.
  revert w. induction periods as [|p l IH]; intros w.
  - intros [= <- <-]. split; [done|]. split; [|by rewrite app_nil_r].
    exists 0, []. by rewrite app_nil_r.
  - simpl for_each. unfold mbind at 1, IO_bind at 1.
    destruct (step writer username password p w) as [[[]|e] w1] eqn:Hstep;
      apply step_traffic in Hstep as (Hp & Hq & Ht).
    + destruct (Ht eq_refl) as [[data Hdata] Ht1].
      intros Hloop.
      apply IH in Hloop as (Hq' & (k & sent & Hk & Hp' & Hs) & Ht').
      split; [congruence|]. split.
      * exists (S k), (data :: sent). split; [simpl; lia|].
        rewrite Hp', Hp, Hdata. simpl. rewrite <- app_assoc.
        split; [done|]. f_equal; [|exact Hs].
        unfold request in Hdata.
        by destruct (encode (xml_request_body username password p));
          simplify_eq.
      * intros Hr. rewrite (Ht' Hr), Ht1. simpl. by rewrite <- app_assoc.
    + intros [= <- <-]. split; [done|]. split; [|done].
      unfold request in Hp.
      destruct (encode (xml_request_body username password p))
        as [data|msg] eqn:Henc.
      * exists 1, [data]. split; [simpl; lia|]. split; [done|].
        simpl. by rewrite Henc.
      * exists 0, []. split; [lia|]. split; [done|]. done.
Qed.

(** The [try] block of [main] in any world. *)
Lemma export_traffic username password w r w' :
  export encode service parse_xml username password w = (r, w') →
  prompts w' = prompts w ∧
  (∃ k sent,
     (k ≤ REPORTING_PERIODS)%nat ∧
     posted w' = posted w ++ sent ∧
     Bytes <$> sent
     = (λ period, encode (xml_request_body username password period))
         <$> seq 0 k) ∧
  (r = Ok tt →
   timeline w'
   = timeline w
       ++ flat_map (turn_traffic encode username password)
            (range REPORTING_PERIODS)).
Proof.
  assert (prompts w = prompts w ∧
          (∃ k sent,
             (k ≤ REPORTING_PERIODS)%nat ∧
             posted w = posted w ++ sent ∧
             Bytes <$> sent
             = (λ period, encode (xml_request_body username password period))
                 <$> seq 0 k)) as Hnothing.
  { split; [done|]. exists 0, []. split; [lia|]. by rewrite app_nil_r. }
  unfold export, mbind at 1, IO_bind at 1, open_w.
  destruct (fs_readonly w).
  { intros [= <- <-]. destruct Hnothing. by split; [|split]. }
  unfold mbind at 1, IO_bind at 1.
  set (w1 := set_file OUTPUT_FILENAME [] (disk_quota w) w).
  pose proof (writerow_trace OUTPUT_FILENAME (Some <$> csv_header) w1)
    as Htr.
  destruct (writerow OUTPUT_FILENAME (Some <$> csv_header) w1)
    as [[[]|e] w2]; simpl in Htr.
  2:{ intros [= <- <-]. unfold prompts, posted in *.
      rewrite Htr. destruct Hnothing. by split; [|split]. }
  unfold mbind, IO_bind.
  destruct (for_each (range REPORTING_PERIODS)
              (step OUTPUT_FILENAME username password) w2)
    as [[[]|e] w3] eqn:Hloop;
    apply loop_traffic in Hloop as (Hq & (k & sent & Hk & Hp & Hs) & Ht);
    intros [= <- <-];
    rewrite ?prompts_log, ?posted_log, ?timeline_log; simpl;
    rewrite ?app_nil_r; unfold prompts, posted, timeline in *;
    rewrite Htr in *.
  - split; [done|]. split;
      [|intros Hr; rewrite (Ht Hr); simpl; by rewrite ?app_nil_r].
    exists k, sent. do 2 (split; [done|]). rewrite Hs. f_equal.
    unfold range, REPORTING_PERIODS in *. simpl in Hk.
    rewrite take_seq. by rewrite Nat.min_l by lia.
  - split; [done|]. split; [|done].
    exists k, sent. do 2 (split; [done|]). rewrite Hs. f_equal.
    unfold range, REPORTING_PERIODS in *. simpl in Hk.
    rewrite take_seq. by rewrite Nat.min_l by lia.
Qed.

End Pace.

(** ** Whole runs *)

Section Runs.

Context (encode : string → encoding) (service : string → string → reply)
  (parse_xml : string → node).

Local Abbreviation outcome_of := (fetch_outcome encode service parse_xml).
Local Abbreviation rows_of := (period_rows encode service parse_xml).
Local Abbreviation step := (period_step encode service parse_xml).
Local Abbreviation run := (run_periods encode service parse_xml).

(** X6. [main] never sends more than four requests, whatever the state of
    the disk and whatever the service answers: the requests it has sent
    when it ends are those of the periods 0, 1, ... up to some period, in
    that order and once each, each being the bytes of the body of its
    period; and after the credentials it prompts for nothing.  When the
    credentials cannot be had, the exception leaves [main] and nothing at
    all has been sent. *)
Theorem main_sends_at_most_four_requests w :
  match get_credentials (log (EvPrint banner) w) with
  | (Ok (username, password), w1) =>
      ∃ k sent,
        (k ≤ REPORTING_PERIODS)%nat ∧
        posted (main encode service parse_xml w).2 = posted w ++ sent ∧
        Bytes <$> sent
        = (λ period, encode (xml_request_body username password period))
            <$> seq 0 k ∧
        prompts (main encode service parse_xml w).2 = prompts w1
  | (Raised e, w1) =>
      main encode service parse_xml w = (Raised e, w1) ∧
      timeline w1 = timeline w
  end.
Proof.
  rewrite main_unfold.
  pose proof (get_credentials_timeline (log (EvPrint banner) w)) as Htl.
  destruct (get_credentials (log (EvPrint banner) w))
    as [[[username password]|e] w1] eqn:Hcred.
  - destruct (get_credentials_frame _ _ _ Hcred) as (_ & _ & _ & Hpost1).
    rewrite posted_log in Hpost1. simpl in Hpost1.
    rewrite app_nil_r in Hpost1.
    unfold try_except.
    destruct (export encode service parse_xml username password w1)
      as [[[]|e] w2] eqn:Hbody;
      apply export_traffic in Hbody as (Hq & (k & sent & Hk & Hp & Hs) & _);
      rewrite Hpost1 in Hp.
    + by exists k, sent.
    + exists k, sent. split; [done|].
      destruct (isinstance e IOError); [|destruct (isinstance e Exception)];
        simpl; rewrite ?posted_log, ?prompts_log; simpl;
        by rewrite ?app_nil_r.
  - split; [done|]. simpl in Htl. rewrite Htl, timeline_log. simpl.
    by rewrite app_nil_r.
Qed.


(** X8. In such a run, when the answer for period [k] is the first one
    with a status that is no error and no result element in it, [main]
    still returns normally, with the message of an unexpected error; the
    file holds the header and the rows of the periods before [k]; the
    requests sent are those of the periods up to [k], and the later
    periods are never asked for. *)
Theorem missing_result_keeps_earlier_periods
    w username password w1 k data r :
  get_credentials (log (EvPrint banner) w) = (Ok (username, password), w1) →
  fs_readonly w = false →
  disk_quota w = None →
  (k < REPORTING_PERIODS)%nat →
  (∀ period,
     (period ≤ k)%nat →
     encode (xml_request_body username password period)
     = Bytes (data period)) →
  (∀ period r',
     (period < k)%nat →
     service API_URL (data period) = Answered r' →
     http_error (status_code r') = false →
     find (parse_xml (content r')) "ProcessWebServiceRequestResult" ≠ None) →
  service API_URL (data k) = Answered r →
  http_error (status_code r) = false →
  find (parse_xml (content r)) "ProcessWebServiceRequestResult" = None →
  ∃ w',
    main encode service parse_xml w = (Ok tt, w') ∧
    file_rows OUTPUT_FILENAME w'
    = csv_header
        :: (csv_record <$> flat_map (rows_of username password) (seq 0 k)) ∧
    posted w' = posted w ++ (data <$> seq 0 (S k)) ∧
    last (printed w') = Some (msg_unexpected no_text_attribute).
Proof.
  intros Hcred Hro Hq Hk Henc Hres Hsvc Hst Hfind.
  assert (run username password (range REPORTING_PERIODS)
          = (seq 0 (S k), flat_map (rows_of username password) (seq 0 k),
             Some no_text_attribute)) as Hrun.
  { unfold range, REPORTING_PERIODS in *.
    replace 4 with (k + S (3 - k)) by lia.
    rewrite seq_app. simpl seq at 2.
    rewrite run_periods_stopped with (e := no_text_attribute).
    - by rewrite seq_S.
    - intros q e' Hq'. apply list_elem_of_In, in_seq in Hq'.
      apply (outcome_with_result _ _ _ _ _ _ (data q)); [apply Henc; lia|].
      intros r'. apply Hres. lia.
    - unfold fetch_outcome. by rewrite Henc, Hsvc, Hst, Hfind by lia. }
  destruct (main_run encode service parse_xml w username password w1
              Hcred Hro Hq)
    as (w' & Hmain & Hrows & Hpost & _ & Hlast).
  rewrite Hrun in Hrows, Hpost, Hlast. cbn [fst snd] in Hrows, Hpost, Hlast.
  exists w'. do 2 (split; [done|]). split; [|done].
  rewrite Hpost. f_equal.
  assert (∀ l : list nat, (∀ q, q ∈ l → (q ≤ k)%nat) →
            omap (request encode username password) l = data <$> l) as Hsent.
  { induction l as [|q l IH]; intros Hl; [done|].
    rewrite fmap_cons. cbn [omap list_omap]. unfold request at 1.
    rewrite Henc by (apply Hl; constructor).
    f_equal. apply IH. intros q' Hq'. apply Hl. by constructor. }
  apply Hsent. intros q Hq'. apply list_elem_of_In, in_seq in Hq'. lia.
Qed.

(** X9. When the output file cannot be opened for writing, a run that has
    its credentials ends before anything is sent or written: no request,
    no pause, every file as it was; [main] returns normally, its last
    line being the message of a file error with the reason. *)
Theorem unwritable_output_stops_before_any_request w username password w1 :
  get_credentials (log (EvPrint banner) w) = (Ok (username, password), w1) →
  fs_readonly w = true →
  ∃ w',
    main encode service parse_xml w = (Ok tt, w') ∧
    files w' = files w ∧
    timeline w' = timeline w ∧
    last (printed w') = Some (msg_file_error permission_denied).
Proof.
  intros Hcred Hro.
  destruct (get_credentials_frame _ _ _ Hcred) as (Hfiles & Hro1 & _ & _).
  simpl in Hfiles, Hro1.
  pose proof (get_credentials_timeline (log (EvPrint banner) w)) as Htl1.
  rewrite Hcred, timeline_log in Htl1. simpl in Htl1.
  rewrite app_nil_r in Htl1.
  rewrite (main_readonly _ _ _ _ _ _ _ Hcred Hro).
  eexists. split; [reflexivity|]. simpl.
  rewrite timeline_log. simpl. rewrite app_nil_r.
  do 2 (split; [done|]). apply last_printed_log.
Qed.

End Runs.

(** ** Credentials, again *)

(** X11. Whether it returns or raises, [get_credentials] sends nothing,
    pauses for nothing and leaves the files and the disk alone; it prints
    exactly one line, which is one of two fixed messages, so that nothing
    of what it reads is ever printed; and it leaves the values of the
    [.env] file in the environment, under those that were set already. *)
Theorem get_credentials_keeps_quiet w :
  let w' := (get_credentials w).2 in
  timeline w' = timeline w ∧ files w' = files w ∧
  disk_quota w' = disk_quota w ∧
  environ w' = environ w ∪ dotenv w ∧
  ∃ line,
    printed w' = printed w ++ [line] ∧
    (line = "Credentials successfully loaded from .env file." ∨
     line = "No .env file detected. Please provide your credentials.").
Proof.
  cbv zeta. split; [apply get_credentials_timeline|].
  destruct (get_credentials w) as [r w'] eqn:Hrun.
  destruct (get_credentials_frame _ _ _ Hrun) as (Hfiles & _ & Hq & _).
  do 2 (split; [done|]).
  revert Hrun. rewrite get_credentials_eq. cbv zeta.
  set (w1 := set_environ (environ w ∪ dotenv w) w).
  assert (∀ r w',
    (print "No .env file detected. Please provide your credentials." ;;
     username ← input "Enter StudentVUE Username: ";
     password ← getpass "Enter StudentVUE Password: ";
     mret (username, password)) w1 = (r, w') →
    environ w' = environ w ∪ dotenv w ∧
    ∃ line,
      printed w' = printed w ++ [line] ∧
      (line = "Credentials successfully loaded from .env file." ∨
       line = "No .env file detected. Please provide your credentials."))
    as Hprompt.
  { clear. intros r w'.
    unfold mbind, IO_bind, print, input, getpass, mret, IO_ret. simpl.
    destruct (stdin w) as [|ul [|pl rest]]; simpl; intros [= <- <-];
      (split; [done|]); eexists; (split; [|by right]);
      unfold printed; simpl; rewrite ?omap_app; simpl;
      by rewrite ?app_nil_r. }
  destruct (environ w1 !! "STUDENTVUE_USERNAME") as [u|]; [|by apply Hprompt].
  destruct (environ w1 !! "STUDENTVUE_PASSWORD") as [p|]; [|by apply Hprompt].
  destruct (truthy (Some u) && truthy (Some p)); [|by apply Hprompt].
  intros [= <- <-]. split; [done|]. eexists. split; [|by left].
  cbn [snd]. by rewrite printed_log.
Qed.

(** X12. What is set in the environment wins over the [.env] file: when
    both values are set there and not empty, they are the credentials,
    whatever the file holds; and a value set to the empty string in the
    environment hides the one of the file, so that the credentials are
    asked for at the terminal although the file has them. *)
Theorem environment_wins_over_dotenv w :
  (∀ u p,
     environ w !! "STUDENTVUE_USERNAME" = Some u →
     environ w !! "STUDENTVUE_PASSWORD" = Some p →
     u ≠ EmptyString → p ≠ EmptyString →
     (get_credentials w).1 = Ok (u, p))
  ∧ (∀ ul pl rest,
       environ w !! "STUDENTVUE_USERNAME" = Some EmptyString ∨
       environ w !! "STUDENTVUE_PASSWORD" = Some EmptyString →
       stdin w = ul :: pl :: rest →
       (get_credentials w).1 = Ok (ul, pl) ∧
       prompts (get_credentials w).2
       = prompts w ++ [EvInput "Enter StudentVUE Username: ";
                       EvGetpass "Enter StudentVUE Password: "]).
Proof.
  split.
  - intros u p Hu Hp Hune Hpne. rewrite get_credentials_eq. cbv zeta.
    simpl environ.
    rewrite (lookup_union_Some_l _ _ _ _ Hu), (lookup_union_Some_l _ _ _ _ Hp).
    unfold truthy.
    destruct (decide (u = EmptyString)) as [|_]; [done|].
    by destruct (decide (p = EmptyString)) as [|_].
  - intros ul pl rest Hempty Hin.
    assert (get_credentials w
            = (print "No .env file detected. Please provide your credentials." ;;
               username ← input "Enter StudentVUE Username: ";
               password ← getpass "Enter StudentVUE Password: ";
               mret (username, password))
                (set_environ (environ w ∪ dotenv w) w)) as ->.
    { rewrite get_credentials_eq. cbv zeta. simpl environ.
      destruct Hempty as [Hu | Hp].
      - rewrite (lookup_union_Some_l _ _ _ _ Hu).
        by destruct ((environ w ∪ dotenv w) !! "STUDENTVUE_PASSWORD").
      - rewrite (lookup_union_Some_l _ _ _ _ Hp).
        destruct ((environ w ∪ dotenv w) !! "STUDENTVUE_USERNAME"); [|done].
        by rewrite andb_false_r. }
    unfold mbind, IO_bind, print, input, getpass, mret, IO_ret. simpl.
    rewrite Hin. simpl. split; [done|].
    unfold prompts. simpl. rewrite !List.filter_app. simpl.
    by rewrite app_nil_r, <- app_assoc.
Qed.

(** ** Gradebooks, again *)

Lemma list_sum_block_length marks :
  (length marks ≤ list_sum (block_length <$> marks))%nat.
Proof.
  induction marks as [|m marks IH]; [done|].
  assert (1 ≤ block_length m)%nat as Hone
    by (unfold block_length; apply Nat.le_max_l).
  rewrite fmap_cons.
  change (S (length marks)
          ≤ block_length m + list_sum (block_length <$> marks))%nat.
  lia.
Qed.

(** X13. For a document of the shape of a gradebook (every Mark below a
    Course, no Course below another) the loops of [write_data_to_csv]
    reach each Mark element of the document exactly once, in document
    order; the number of rows is the sum, over the Mark elements, of the
    number of their Assignment elements, counted as one when there is
    none; so there are at least as many rows as Marks. *)
Theorem rows_of_a_gradebook soup :
  layered soup = true →
  find_all soup "Mark"
  = flat_map (λ course, find_all course "Mark") (find_all soup "Course")
  ∧ length (soup_rows soup) = list_sum (block_length <$> find_all soup "Mark")
  ∧ (length (find_all soup "Mark") ≤ length (soup_rows soup))%nat.
Proof.
  intros Hshape. split; [by apply layered_marks|].
  rewrite (layered_row_count soup Hshape). split; [done|].
  apply list_sum_block_length.
Qed.

(** * The further properties at work on the sample run *)

Lemma fetch_returns_document_unless_marked_witness :
  (fetch_gradebook_data Sample.utf8
     (Sample.scripted Sample.second_period_broken)
     Sample.parse "alice" "secret" 0 Sample.configured).1
  = Ok (Some Sample.gradebook).
Proof.
  destruct (fetch_returns_document_unless_marked
              Sample.utf8 (Sample.scripted Sample.second_period_broken)
              Sample.parse "alice" "secret" 0
              (xml_request_body "alice" "secret" 0)
              (Response 200 "OK" "<result><Gradebook/></result>")
              (Tag "ProcessWebServiceRequestResult" ∅
                 [NavigableString "<Gradebook/>"])
              Sample.configured) as [Hdoc _];
    [vm_compute; reflexivity..|].
  apply Hdoc. intros (before & after & H).
  assert (str_in "ERROR" "<Gradebook/>" = true) as Hin
    by (apply str_in_spec; by exists before, after).
  vm_compute in Hin. discriminate.
Defined.


Lemma missing_result_keeps_earlier_periods_witness :
  ∃ w',
    main Sample.utf8 (Sample.scripted Sample.second_period_broken)
      Sample.parse Sample.configured = (Ok tt, w') ∧
    length (file_rows OUTPUT_FILENAME w') = 4 ∧
    length (posted w') = 2 ∧
    last (printed w') = Some (msg_unexpected no_text_attribute).
Proof.
  destruct (missing_result_keeps_earlier_periods
              Sample.utf8 (Sample.scripted Sample.second_period_broken)
              Sample.parse Sample.configured "alice" "secret"
              (get_credentials (log (EvPrint banner) Sample.configured)).2
              1 (xml_request_body "alice" "secret")
              (Response 200 "OK" "<html/>"))
    as (w' & Hmain & Hrows & Hpost & Hlast);
    [vm_compute; reflexivity | reflexivity | reflexivity
    | unfold REPORTING_PERIODS; lia | | 
    | vm_compute; reflexivity | vm_compute; reflexivity
    | vm_compute; reflexivity |].
  { intros period Hp.
    destruct period as [|[|period]]; [vm_compute; reflexivity..|lia]. }
  { intros period r' Hp. destruct period as [|period]; [|lia].
    vm_compute. intros [= <-] _. discriminate. }
  exists w'. split; [exact Hmain|]. split; [|split; [|exact Hlast]].
  - rewrite Hrows. vm_compute. reflexivity.
  - rewrite Hpost. reflexivity.
Defined.


Lemma unwritable_output_stops_before_any_request_witness :
  ∃ w',
    main Sample.utf8 (Sample.scripted Sample.all_down) Sample.parse
      Sample.readonly
    = (Ok tt, w') ∧
    files w' = ∅ ∧ timeline w' = [].
Proof.
  destruct (unwritable_output_stops_before_any_request
              Sample.utf8 (Sample.scripted Sample.all_down) Sample.parse
              Sample.readonly "alice" "secret"
              (get_credentials (log (EvPrint banner) Sample.readonly)).2)
    as (w' & Hmain & Hfiles & Htl & _);
    [vm_compute; reflexivity | reflexivity |].
  exists w'. split; [exact Hmain|]. split; [exact Hfiles|exact Htl].
Defined.

Lemma environment_wins_over_dotenv_witness :
  (get_credentials Scenario.overridden).1 = Ok ("alice", "secret")
  ∧ (get_credentials Scenario.masked).1 = Ok ("alice", "secret").
Proof.
  split.
  - destruct (environment_wins_over_dotenv Scenario.overridden) as [Henv _].
    apply Henv; [vm_compute; reflexivity | vm_compute; reflexivity
                | discriminate | discriminate].
  - destruct (environment_wins_over_dotenv Scenario.masked) as [_ Hmask].
    destruct (Hmask "alice" "secret" []) as [Hrun _];
      [left; vm_compute; reflexivity | reflexivity | exact Hrun].
Defined.

Lemma rows_of_a_gradebook_witness :
  length (soup_rows Sample.gradebook) = 3
  ∧ (2 ≤ length (soup_rows Sample.gradebook))%nat.
Proof.
  destruct (rows_of_a_gradebook Sample.gradebook) as (_ & Hcount & Hmin);
    [vm_compute; reflexivity|].
  split; [rewrite Hcount; vm_compute; reflexivity|exact Hmin].
Defined.
